(** * topo-ae-distances: the competitor-fitting run and the model submodules

    Shallow embedding of
    - [exp/fit_competitor.py]: the Sacred entry point [train], which fits a
      dimensionality-reduction model, persists artifacts under the run
      directory and hands data, embedding and labels to [evaluate_space];
    - [src/models/submodules.py]: the autoencoder classes and the
      multi-projection model [OrthoProjectionModel].

    Python effects are explicit: a computation yields the trace of the
    external calls it made (logging, file writes, collaborator calls) and
    either a raised exception or a value. *)

From Stdlib Require Import Ascii.
From stdpp Require Import base strings gmap list pretty.

(** ** Python runtime: exceptions, traces, arrays, paths *)
Module Py.

Inductive exn : Type :=
| ValueError (msg : string)
| AttributeError (attr : string)
| IndexError (msg : string)
| TypeError (msg : string)
| RuntimeError (msg : string).

(** A fallible pure computation: [inl e] is [raise e]. *)
Definition result (A : Type) : Type := exn + A.

(** An effectful computation over events [E]: the events emitted so far, in
    order, and how the computation ended. Events emitted before a raise stay
    in the trace. *)
Definition M (E A : Type) : Type := list E * result A.

Definition ret {E A} (a : A) : M E A := ([], inr a).

Definition bind {E A B} (k : A → M E B) (m : M E A) : M E B :=
  match m with
  | (t, inl e) => (t, inl e)
  | (t, inr a) => let '(t', r) := k a in (t ++ t', r)
  end.

(** [x ← m; k] sequences two computations; [mret] returns. *)
#[global] Instance M_ret {E} : MRet (M E) := @ret E.
#[global] Instance M_bind {E} : MBind (M E) := @bind E.

Definition emit {E} (e : E) : M E () := ([e], inr ()).
Definition lift {E A} (r : result A) : M E A := ([], r).

(** [if c: body] with no else branch. *)
Definition when {E} (c : bool) (body : M E ()) : M E () :=
  if c then body else mret ().

(** [try: body / except IndexError: handler]; any other exception passes. *)
Definition try_except_IndexError {E A} (body : M E A) (handler : M E A) : M E A :=
  match body with
  | (t, inl (IndexError _)) => let '(t', r) := handler in (t ++ t', r)
  | other => other
  end.

#[global] Instance result_ret : MRet result := λ A a, inr a.
#[global] Instance result_bind : MBind result := λ A B k r,
  match r with
  | inl e => inl e
  | inr a => k a
  end.

Definition trace {E A} (m : M E A) : list E := m.1.
Definition outcome {E A} (m : M E A) : result A := m.2.

(** [xs[i]] on a Python list. *)
Definition getitem {A} (xs : list A) (i : nat) : result A :=
  match xs !! i with
  | Some x => inr x
  | None => inl (IndexError "list index out of range")
  end.

(** [obj.name] when the attribute may be absent from the object. *)
Definition getattr {A} (name : string) (field : option A) : result A :=
  match field with
  | Some a => inr a
  | None => inl (AttributeError name)
  end.

(** Truthiness of a value that is [None] or a [str]. *)
Definition truthy (s : option string) : bool :=
  match s with
  | Some s => negb (String.eqb s "")
  | None => false
  end.

(** [data, labels = zip] of the starred sequence of pairs: unpacking into two
    names needs the zip to yield exactly two tuples, which it does as soon as
    there is one pair; on no pairs it yields nothing and the unpacking
    raises. *)
Definition zip_star {A B} (pairs : list (A * B)) : result (list A * list B) :=
  match pairs with
  | [] => inl (ValueError "not enough values to unpack (expected 2, got 0)")
  | _ => inr (pairs.*1, pairs.*2)
  end.

(** [os.path.join(a, b)] (posixpath). *)
Fixpoint ends_with_sep (a : string) : bool :=
  match a with
  | EmptyString => false
  | String c rest =>
      match rest with
      | EmptyString => Stdlib.Strings.Ascii.eqb c "/"%char
      | _ => ends_with_sep rest
      end
  end.

Definition path_join (a b : string) : string :=
  if String.prefix "/" b then b
  else if String.eqb a "" || ends_with_sep a then a +:+ b
  else a +:+ "/" +:+ b.

(** A numpy array: its shape and its entries in row-major order. *)
Record ndarray (A : Type) : Type := NDArray { shape : list nat; buffer : list A }.
Arguments NDArray {A} shape buffer.
Arguments shape {A} _.
Arguments buffer {A} _.

Definition np_size {A} (a : ndarray A) : nat := foldr Nat.mul 1 (shape a).

(** [len(a)]: the extent of the first axis. *)
Definition np_len {A} (a : ndarray A) : option nat := head (shape a).

(** [a[i]] for [0 <= i < len(a)]: the i-th slice along the first axis. *)
Definition np_row {A} (a : ndarray A) (i : nat) : option (list A) :=
  match shape a with
  | n :: inner =>
      if decide (i < n)
      then let w := foldr Nat.mul 1 inner in Some (take w (drop (i * w) (buffer a)))
      else None
  | [] => None
  end.

(** [a.shape[i]]. *)
Definition shape_getitem {A} (a : ndarray A) (i : nat) : result nat :=
  match shape a !! i with
  | Some d => inr d
  | None => inl (IndexError "tuple index out of range")
  end.

(** [np.stack(arrays)] along a new first axis. *)
Definition np_stack {A} (arrays : list (ndarray A)) : result (ndarray A) :=
  match arrays with
  | [] => inl (ValueError "need at least one array to stack")
  | a :: rest =>
      if forallb (λ b, bool_decide (shape b = shape a)) rest
      then inr (NDArray (length arrays :: shape a) (concat (buffer <$> arrays)))
      else inl (ValueError "all input arrays must have the same shape")
  end.

(** [a.reshape(n, -1)]: the free extent is the size divided by [n]. *)
Definition reshape_rows {A} (n : nat) (a : ndarray A) : result (ndarray A) :=
  if (n =? 0) || negb (np_size a mod n =? 0)
  then inl (ValueError "cannot reshape array")
  else inr (NDArray [n; np_size a / n] (buffer a)).

End Py.


(** ** exp/fit_competitor.py *)
Module FitCompetitor.
Import Py.

(** The value domains the run is generic in: array entries and metric values
    are floats, the rest is opaque to [train]. *)
Class Domains : Type := {
  Scalar : Type;
  Label : Type;
  ModelState : Type;
  Metric : Type;
  ValSize : Type;
  Seed : Type;
  Rnd : Type
}.

Section Train.
Context `{Domains}.

(** An iterable of (sample, label) pairs. *)
Local Abbreviation Dataset := (list (ndarray Scalar * Label)).

(** A model object: its fitted state and the two methods [train] looks
    for; [None] is an object without that attribute. [fit_transform] fits
    in place, so it yields the new state along with the embedding.

    A method is handed the caller's array object, not a copy, and may write
    into it: [fit_transform_leaves st X] and [transform_leaves st X] are
    what the argument holds once the call on a model in state [st] and an
    array holding [X] has returned ([X] for a method that leaves its
    argument alone). The methods are those that return: one that raises
    ends the run at its call. *)
Record Model : Type := {
  state : ModelState;
  fit_transform :
    option (ModelState → ndarray Scalar → ModelState * ndarray Scalar);
  transform : option (ModelState → ndarray Scalar → ndarray Scalar);
  fit_transform_leaves : ModelState → ndarray Scalar → ndarray Scalar;
  transform_leaves : ModelState → ndarray Scalar → ndarray Scalar
}.

(** The [evaluation] configuration dictionary. *)
Record Evaluation : Type := {
  active : bool;
  k : Z;
  evaluate_on : string
}.

(** A Sacred observer: [dir] is absent on observers that keep no run
    directory, and is [None] or a path on those that do. *)
Record Observer : Type := { dir : option (option string) }.
Record Run : Type := { observers : list Observer }.

(** What lives outside this file: the dataset and model ingredients,
    [split_validation] and [Multi_Evaluation.evaluate_space]. *)
Record Collaborators : Type := {
  dataset_get_instance : bool → Dataset;
  split_validation : Dataset → ValSize → Rnd → Dataset * Dataset;
  model_get_instance : Model;
  evaluate_space :
    Seed → ndarray Scalar → ndarray Scalar → list Label → Z →
    result (gmap string Metric)
}.

(** The external calls of a run, in the order they happen. *)
Inductive Event : Type :=
| LogWarn (msg : string)
| LogInfo (msg : string)
| FitTransform (data : ndarray Scalar)
| Transform (data : ndarray Scalar)
| PickleDump (path : string) (model : Model)
| Savez (path : string) (latents : ndarray Scalar) (labels : list Label)
| VisualizeLatents (latent : ndarray Scalar) (labels : list Label)
    (save_file : string)
| EvaluateSpace (data latent : ndarray Scalar) (labels : list Label) (K : Z).

Definition hasattr_transform (model : Model) : bool :=
  bool_decide (is_Some (transform model)).

(** [np.stack(data).reshape(len(data), -1)] *)
Definition stack_flat (data : list (ndarray Scalar)) : result (ndarray Scalar) :=
  a ← np_stack data; reshape_rows (length data) a.

(** The three statements that turn a dataset into arrays, used for the
    dataset that is fitted (lines 50 or 55, then 57-58) and for the one that
    is evaluated (lines 80 or 83, then 84-85): unzip, stack and flatten the
    samples, [np.array] the labels. *)
Definition to_arrays (dataset : Dataset)
  : result (ndarray Scalar * list Label) :=
  '(data, labels) ← zip_star dataset;
  data ← stack_flat data;
  mret (data, labels).

(** The model object with another state: the object is the same, its
    methods are. *)
Definition with_state (model : Model) (st : ModelState) : Model :=
  {| state := st;
     fit_transform := fit_transform model;
     transform := transform model;
     fit_transform_leaves := fit_transform_leaves model;
     transform_leaves := transform_leaves model |}.

(** [model.fit_transform(data)]: the attribute is looked up, then called;
    the model object is fitted in place. The call yields the model, the
    array it returns and the array object it was given, as it left it. *)
Definition call_fit_transform (model : Model) (data : ndarray Scalar)
  : M Event (Model * ndarray Scalar * ndarray Scalar) :=
  f ← lift (getattr "fit_transform" (fit_transform model));
  _ ← emit (FitTransform data);
  let '(st, out) := f (state model) data in
  mret (with_state model st, out,
        fit_transform_leaves model (state model) data).

(** [model.transform(data)]: the array it returns and the array object it
    was given, as it left it. *)
Definition call_transform (model : Model) (data : ndarray Scalar)
  : M Event (ndarray Scalar * ndarray Scalar) :=
  f ← lift (getattr "transform" (transform model));
  _ ← emit (Transform data);
  mret (f (state model) data, transform_leaves model (state model) data).

(** [Multi_Evaluation(dataloader=None, seed=_seed, model=None)
     .evaluate_space(data, latent, labels, K=K)] *)
Definition call_evaluate_space (C : Collaborators) (_seed : Seed)
    (data latent : ndarray Scalar) (labels : list Label) (K : Z)
  : M Event (gmap string Metric) :=
  _ ← emit (EvaluateSpace data latent labels K);
  lift (evaluate_space C _seed data latent labels K).

(** [{f(key): value for key, value in d.items()}]: entries are inserted one
    after the other, a later one replacing an earlier one under the same
    key. *)
Definition dict_comprehension (f : string → string) (d : gmap string Metric)
  : gmap string Metric :=
  foldl (λ acc kv, <[f kv.1 := kv.2]> acc) ∅ (map_to_list d).

(** [d.update(other)] *)
Definition dict_update (d other : gmap string Metric) : gmap string Metric :=
  other ∪ d.

(** Lines 63-67: the directory of the first observer, [None] without
    observers. Only the [IndexError] of the indexing is caught. *)
Definition get_rundir (_run : Run) : M Event (option string) :=
  try_except_IndexError
    (o ← lift (getitem (observers _run) 0); lift (getattr "dir" (dir o)))
    (mret None).

(** The run. [data] names one array object from line 57 on, and again from
    line 84 on: after a call of the model on it, it stands for that object
    with the content the call left in it. *)
Definition train (C : Collaborators) (val_size : ValSize)
    (evaluation : Evaluation) (_run : Run) (_seed : Seed) (_rnd : Rnd)
  : M Event (gmap string Metric) :=
  let dataset := dataset_get_instance C true in
  let '(train_dataset, validation_dataset) :=
    split_validation C dataset val_size _rnd in
  let test_dataset := dataset_get_instance C false in
  let model := model_get_instance C in
  let supports_transform := hasattr_transform model in
  '(data, labels) ←
    (if supports_transform then lift (to_arrays train_dataset)
     else
       _ ← emit (LogWarn "Model does not support separate training and prediction.");
       _ ← emit (LogWarn "Directly running on test dataset!");
       lift (to_arrays test_dataset));
  _ ← emit (LogInfo "Fitting model...");
  '(model, transformed_data, data) ← call_fit_transform model data;
  rundir ← get_rundir _run;
  _ ← when (truthy rundir)
        (emit (PickleDump (path_join (default "" rundir) "model.pth") model));
  let result : gmap string Metric := ∅ in
  if active evaluation then
    let evaluate_on := evaluate_on evaluation in
    _ ← emit (LogInfo ("Running evaluation on " +:+ evaluate_on +:+ " dataset"));
    '(data, labels, latent) ←
      (if supports_transform then
         '(data, labels) ←
           (if String.eqb evaluate_on "validation"
            then lift (to_arrays validation_dataset)
            else lift (to_arrays test_dataset));
         '(latent, data) ← call_transform model data;
         mret (data, labels, latent)
       else mret (data, labels, transformed_data));
    _ ← when (truthy rundir)
          (emit (Savez (path_join (default "" rundir) "latents.npz") latent labels));
    d1 ← lift (shape_getitem latent 1);
    _ ← when ((d1 =? 2) && truthy rundir)
          (emit (VisualizeLatents latent labels
                   (path_join (default "" rundir) "latent_visualization.pdf")));
    ev_result ← call_evaluate_space C _seed data latent labels (k evaluation);
    let prefixed_ev_result :=
      dict_comprehension (λ key, (evaluate_on +:+ "_") +:+ key) ev_result in
    mret (dict_update result prefixed_ev_result)
  else mret result.

(** *** Vocabulary of the statements *)

(** The three datasets of a run (lines 38-41). *)
Definition train_dataset (C : Collaborators) (val_size : ValSize) (_rnd : Rnd)
  : Dataset :=
  (split_validation C (dataset_get_instance C true) val_size _rnd).1.
Definition validation_dataset (C : Collaborators) (val_size : ValSize)
    (_rnd : Rnd) : Dataset :=
  (split_validation C (dataset_get_instance C true) val_size _rnd).2.
Definition test_dataset (C : Collaborators) : Dataset :=
  dataset_get_instance C false.

(** The dataset partitions and the names the configuration gives them. *)
Inductive Partition : Type := TrainPart | ValidationPart | TestPart.

Definition partition_name (p : Partition) : string :=
  match p with
  | TrainPart => "train"
  | ValidationPart => "validation"
  | TestPart => "test"
  end.

Definition partition_dataset (C : Collaborators) (val_size : ValSize)
    (_rnd : Rnd) (p : Partition) : Dataset :=
  match p with
  | TrainPart => train_dataset C val_size _rnd
  | ValidationPart => validation_dataset C val_size _rnd
  | TestPart => test_dataset C
  end.

(** The model object once [fit_transform] has run on [data]. *)
Definition fitted (model : Model)
    (ft : ModelState → ndarray Scalar → ModelState * ndarray Scalar)
    (data : ndarray Scalar) : Model :=
  with_state model (ft (state model) data).1.

(** The events that write a file, with the path written. *)
Definition written_path (e : Event) : option string :=
  match e with
  | PickleDump path _ => Some path
  | Savez path _ _ => Some path
  | VisualizeLatents _ _ save_file => Some save_file
  | _ => None
  end.

(** Logging is the only effect of these events. *)
Definition is_log (e : Event) : bool :=
  match e with
  | LogWarn _ | LogInfo _ => true
  | _ => false
  end.

(** [latent] has as many rows as [data], and row [i] of [latent] is related
    by [R] to row [i] of [data]. *)
Definition aligned (R : list Scalar → list Scalar → Prop)
    (data latent : ndarray Scalar) : Prop :=
  np_len latent = np_len data ∧
  ∀ i x, np_row data i = Some x → ∃ y, np_row latent i = Some y ∧ R x y.

(** The place of an external call in the order of the source text; logging
    has none. *)
Definition event_rank (e : Event) : option nat :=
  match e with
  | LogWarn _ | LogInfo _ => None
  | FitTransform _ => Some 0
  | PickleDump _ _ => Some 1
  | Transform _ => Some 2
  | Savez _ _ _ => Some 3
  | VisualizeLatents _ _ _ => Some 4
  | EvaluateSpace _ _ _ _ => Some 5
  end.

End Train.
(** *** A small concrete run

    Three training samples and two test samples of two entries each; the
    split holds out the last [val_size] training samples; the models embed
    by the identity and count their fits. *)
Definition demo_domains : Domains :=
  {| Scalar := Z; Label := nat; ModelState := nat; Metric := Z;
     ValSize := nat; Seed := nat; Rnd := nat |}.
#[local] Existing Instance demo_domains.

Definition demo_dataset (train : bool) : list (ndarray Z * nat) :=
  if train
  then [(NDArray [2] [1; 2]%Z, 0); (NDArray [2] [3; 4]%Z, 1);
        (NDArray [2] [5; 6]%Z, 0)]
  else [(NDArray [2] [7; 8]%Z, 1); (NDArray [2] [9; 10]%Z, 0)].

Definition demo_split (dataset : list (ndarray Z * nat)) (val_size rnd : nat)
  : list (ndarray Z * nat) * list (ndarray Z * nat) :=
  (take (length dataset - val_size) dataset,
   drop (length dataset - val_size) dataset).

(** A model with [fit_transform] and [transform]. *)
Definition demo_pca : @Model demo_domains :=
  {| state := 0;
     fit_transform := Some (λ st X, (S st, X));
     transform := Some (λ st X, X);
     fit_transform_leaves := λ st X, X;
     transform_leaves := λ st X, X |}.

(** A model with [fit_transform] only. *)
Definition demo_tsne : @Model demo_domains :=
  {| state := 0;
     fit_transform := Some (λ st X, (S st, X));
     transform := None;
     fit_transform_leaves := λ st X, X;
     transform_leaves := λ st X, X |}.

(** A model with [fit_transform] only that works in place: it returns the
    rows it was given and leaves its argument rescaled, every entry
    doubled. *)
Definition demo_inplace : @Model demo_domains :=
  {| state := 0;
     fit_transform := Some (λ st X, (S st, X));
     transform := None;
     fit_transform_leaves :=
       λ st X, NDArray (shape X) ((λ v, 2 * v)%Z <$> buffer X);
     transform_leaves := λ st X, X |}.

(** A model with [fit_transform] only, whose embedding has one axis. *)
Definition demo_flat : @Model demo_domains :=
  {| state := 0;
     fit_transform := Some (λ st X, (S st, NDArray [np_size X] (buffer X)));
     transform := None;
     fit_transform_leaves := λ st X, X;
     transform_leaves := λ st X, X |}.

(** An object with neither method. *)
Definition demo_bare : @Model demo_domains :=
  {| state := 0; fit_transform := None; transform := None;
     fit_transform_leaves := λ st X, X;
     transform_leaves := λ st X, X |}.

Definition demo_world (model : @Model demo_domains)
  : @Collaborators demo_domains :=
  {| dataset_get_instance := demo_dataset;
     split_validation := demo_split;
     model_get_instance := model;
     evaluate_space := λ _ _ _ _ _, inr {[ "mrre" := 0%Z ]} |}.

Definition demo_evaluation (active : bool) (evaluate_on : string)
  : Evaluation :=
  {| active := active; k := 15; evaluate_on := evaluate_on |}.

(** A run tracked by a file-storage observer, and an untracked one. *)
Definition demo_tracked : Run := {| observers := [ {| dir := Some (Some "runs/1") |} ] |}.
Definition demo_untracked : Run := {| observers := [] |}.

End FitCompetitor.

(** ** src/models/submodules.py *)
Module Submodules.
Import Py.

(** Tensor entries and the learned parameters (weights, biases, buffers) of
    one layer. *)
Class TorchDomains : Type := {
  Scalar : Type;
  Params : Type
}.

Section Modules.
Context `{TorchDomains}.

(** The [torch.nn] layers the file instantiates, with their constructor
    arguments; a layer that learns carries the parameters it was
    initialised with. [View] is the class of this file. *)
Inductive Layer : Type :=
| Conv2d (in_channels out_channels kernel_size stride padding : nat) (w : Params)
| ConvTranspose2d (in_channels out_channels kernel_size stride padding : nat)
    (w : Params)
| MaxPool2d (kernel_size stride : nat)
| ReLU (inplace : bool)
| Tanh
| Linear (in_features out_features : nat) (w : Params)
| BatchNorm1d (num_features : nat) (w : Params)
| View (shape : list Z).

(** The numerics of torch and geotorch, which this file only calls.
    [compute_stride size stride newsize] is torch's answer to whether a
    tensor of that size and those strides can be seen under [newsize]
    without copying: the strides of the view, or [None]. *)
Record Torch : Type := {
  relu : Scalar → Scalar;
  layer_forward : Layer → ndarray Scalar → result (ndarray Scalar);
  mse_loss : ndarray Scalar → ndarray Scalar → result Scalar;
  orthogonal : Params → Params;
  compute_stride : list nat → list nat → list nat → option (list nat)
}.

(** [np.prod(input_dims)] *)
Definition np_prod (dims : list nat) : nat := foldr Nat.mul 1 dims.

(** The pass of torch's [infer_size] over the requested shape, left to
    right: the product of the extents given and the index of the extent to
    infer. *)
Fixpoint scan_shape (shape : list Z) (dim newsize : nat)
    (infer_dim : option nat) : result (nat * option nat) :=
  match shape with
  | [] => inr (newsize, infer_dim)
  | d :: shape =>
      if (d =? -1)%Z then
        match infer_dim with
        | Some _ => inl (RuntimeError "only one dimension can be inferred")
        | None => scan_shape shape (S dim) newsize (Some dim)
        end
      else if (0 <=? d)%Z then
        scan_shape shape (S dim) (newsize * Z.to_nat d) infer_dim
      else inl (RuntimeError "invalid shape dimension")
  end.

(** The size a [view] call resolves to: at most one extent may be [-1], and
    it is inferred from the number of elements. *)
Definition infer_size (shape : list Z) (numel : nat) : result (list nat) :=
  '(newsize, infer_dim) ← scan_shape shape 0 1 None;
  if (numel =? newsize)
     || (bool_decide (is_Some infer_dim) && (0 <? newsize)
         && (numel mod newsize =? 0))
  then
    match infer_dim with
    | Some dim =>
        if newsize =? 0
        then inl (RuntimeError "cannot reshape tensor of 0 elements: the unspecified dimension is ambiguous")
        else inr (<[dim := numel / newsize]> (Z.to_nat <$> shape))
    | None => inr (Z.to_nat <$> shape)
    end
  else inl (RuntimeError "shape is invalid for input size").

(** The size [x.view( *shape )] resolves to for a tensor of [numel]
    elements; the call needs at least one argument, so an empty [shape] is
    a [TypeError]. *)
Definition view_size (shape : list Z) (numel : nat) : result (list nat) :=
  match shape with
  | [] => inl (TypeError "view() received an invalid combination of arguments")
  | _ => infer_size shape numel
  end.

(** The value of [x.view( *shape )]: the entries of [x], in order, under
    the new size. Whether the layout of the tensor admits that size is
    checked by [view] below; a contiguous tensor always does. *)
Definition tensor_view (shape : list Z) (x : ndarray Scalar)
  : result (ndarray Scalar) :=
  size ← view_size shape (np_size x); mret (NDArray size (buffer x)).

(** A tensor object as [view] looks at it: the value it denotes and the
    strides of its layout. *)
Record Tensor : Type := { value : ndarray Scalar; stride : list nat }.

(** [x.view( *shape )] on a tensor object: the size is resolved first, then
    the layout of [x] must admit it. *)
Definition view (T : Torch) (shape : list Z) (x : Tensor) : result Tensor :=
  y ← tensor_view shape (value x);
  match compute_stride T (Py.shape (value x)) (stride x) (Py.shape y) with
  | Some strides => inr {| value := y; stride := strides |}
  | None =>
      inl (RuntimeError
             "view size is not compatible with input tensor's size and stride")
  end.

(** [geotorch.orthogonal(module, "weight")] *)
Definition geotorch_orthogonal (T : Torch) (module : Layer) : Layer :=
  match module with
  | Linear i o w => Linear i o (orthogonal T w)
  | Conv2d i o ks s p w => Conv2d i o ks s p (orthogonal T w)
  | ConvTranspose2d i o ks s p w => ConvTranspose2d i o ks s p (orthogonal T w)
  | other => other
  end.

(** The value a layer computes from a value. *)
Definition apply_layer (T : Torch) (module : Layer) (x : ndarray Scalar)
  : result (ndarray Scalar) :=
  match module with
  | View shape => tensor_view shape x
  | ReLU _ => inr (NDArray (shape x) (relu T <$> buffer x))
  | _ => layer_forward T module x
  end.

(** *** Tensors as objects

    A tensor object is a reference to a storage together with its size;
    [view] returns a second object on the same storage and an in-place
    layer overwrites the storage it is given. The heap lists the storages
    allocated so far for the tensors that flow through a pipeline; the
    parameters and buffers of the layers are not in it. *)
Record TensorRef : Type := { storage : nat; size : list nat }.
Local Abbreviation Heap := (list (list Scalar)).

Definition deref (σ : Heap) (t : TensorRef) : result (ndarray Scalar) :=
  match σ !! storage t with
  | Some b => inr (NDArray (size t) b)
  | None => inl (RuntimeError "tensor without storage")
  end.

Definition alloc (v : ndarray Scalar) (σ : Heap) : TensorRef * Heap :=
  ({| storage := length σ; size := shape v |}, σ ++ [buffer v]).

(** [module(input)] *)
Definition call (T : Torch) (module : Layer) (input : TensorRef) (σ : Heap)
  : result (TensorRef * Heap) :=
  x ← deref σ input;
  match module with
  | View shape =>
      size ← view_size shape (np_size x);
      mret ({| storage := storage input; size := size |}, σ)
  | ReLU true => mret (input, <[storage input := relu T <$> buffer x]> σ)
  | _ => out ← apply_layer T module x; mret (alloc out σ)
  end.

(** [nn.Sequential.forward]: each module is fed the output of the one
    before. *)
Fixpoint sequential (T : Torch) (modules : list Layer) (input : TensorRef)
    (σ : Heap) : result (TensorRef * Heap) :=
  match modules with
  | [] => inr (input, σ)
  | module :: rest =>
      '(input, σ) ← call T module input σ; sequential T rest input σ
  end.

(** *** The autoencoder classes without a variational loss

    Each class builds an encoder and a decoder in [__init__] and has the
    same [encode], [decode] and [forward]; [reconst_error] is
    [nn.MSELoss()] in all of them. A class is named with its constructor
    arguments. *)
Record AutoencoderModel : Type := {
  encoder : list Layer;
  decoder : list Layer
}.

Inductive AEClass : Type :=
| ConvolutionalAutoencoder
| ConvolutionalAutoencoder_2D (input_channels : nat)
| DeepAE (input_dims : list nat)
| LinearAE (input_dims : list nat)
| LinearAEOrtho (input_dims : list nat)
| MLPAutoencoder (arch : list nat)
| MLPAutoencoder_Spheres (input_dim : nat) (arch : list nat)
| LinearAE_Spheres (input_dim : nat)
| LinearAEOrtho_Spheres (input_dim : nat).

(** [__init__]; [θ i] is what the i-th learning layer is initialised
    with, in construction order. *)
Definition init (T : Torch) (θ : nat → Params) (c : AEClass) : AutoencoderModel :=
  match c with
  | ConvolutionalAutoencoder =>
      {| encoder := [ Conv2d 1 16 3 3 1 (θ 0); ReLU true; MaxPool2d 2 2;
                      Conv2d 16 8 3 2 1 (θ 1); ReLU true; MaxPool2d 2 1 ];
         decoder := [ ConvTranspose2d 8 16 3 2 0 (θ 2); ReLU true;
                      ConvTranspose2d 16 8 5 3 1 (θ 3); ReLU true;
                      ConvTranspose2d 8 1 2 2 1 (θ 4); Tanh ] |}
  | ConvolutionalAutoencoder_2D input_channels =>
      {| encoder := [ Conv2d input_channels 8 9 1 0 (θ 0); ReLU false;
                      Conv2d 8 4 9 1 0 (θ 1); ReLU false;
                      View [-1; 576]%Z;
                      Linear 576 250 (θ 2); ReLU false;
                      Linear 250 2 (θ 3) ];
         decoder := [ Linear 2 250 (θ 4); ReLU false;
                      View [-1; 250; 1; 1]%Z; ReLU false;
                      ConvTranspose2d 250 4 12 1 0 (θ 5); ReLU false;
                      ConvTranspose2d 4 4 17 1 0 (θ 6); ReLU false;
                      Conv2d 4 1 1 1 0 (θ 7); Tanh ] |}
  | DeepAE input_dims =>
      let n_input_dims := np_prod input_dims in
      {| encoder := [ View [-1; Z.of_nat n_input_dims]%Z;
                      Linear n_input_dims 1000 (θ 0); ReLU true;
                      BatchNorm1d 1000 (θ 1);
                      Linear 1000 500 (θ 2); ReLU true;
                      BatchNorm1d 500 (θ 3);
                      Linear 500 250 (θ 4); ReLU true;
                      BatchNorm1d 250 (θ 5);
                      Linear 250 2 (θ 6) ];
         decoder := [ Linear 2 250 (θ 7); ReLU true;
                      BatchNorm1d 250 (θ 8);
                      Linear 250 500 (θ 9); ReLU true;
                      BatchNorm1d 500 (θ 10);
                      Linear 500 1000 (θ 11); ReLU true;
                      BatchNorm1d 1000 (θ 12);
                      Linear 1000 n_input_dims (θ 13);
                      View ((-1)%Z :: (Z.of_nat <$> input_dims)); Tanh ] |}
  | LinearAE input_dims =>
      let n_input_dims := np_prod input_dims in
      {| encoder := [ View [-1; Z.of_nat n_input_dims]%Z;
                      Linear n_input_dims 2 (θ 0) ];
         decoder := [ Linear 2 n_input_dims (θ 1);
                      View ((-1)%Z :: (Z.of_nat <$> input_dims)) ] |}
  | LinearAEOrtho input_dims =>
      let n_input_dims := np_prod input_dims in
      let linear := geotorch_orthogonal T (Linear n_input_dims 2 (θ 0)) in
      {| encoder := [ View [-1; Z.of_nat n_input_dims]%Z; linear ];
         decoder := [ Linear 2 n_input_dims (θ 1);
                      View ((-1)%Z :: (Z.of_nat <$> input_dims)) ] |}
  | MLPAutoencoder arch =>
      {| encoder := [ Linear 3 32 (θ 0); ReLU true; BatchNorm1d 32 (θ 1);
                      Linear 32 32 (θ 2); ReLU true; BatchNorm1d 32 (θ 3);
                      Linear 32 2 (θ 4) ];
         decoder := [ Linear 2 32 (θ 5); ReLU true; BatchNorm1d 32 (θ 6);
                      Linear 32 32 (θ 7); ReLU true; BatchNorm1d 32 (θ 8);
                      Linear 32 3 (θ 9) ] |}
  | MLPAutoencoder_Spheres input_dim arch =>
      {| encoder := [ Linear input_dim 32 (θ 0); BatchNorm1d 32 (θ 1); ReLU true;
                      Linear 32 32 (θ 2); BatchNorm1d 32 (θ 3); ReLU true;
                      Linear 32 2 (θ 4) ];
         decoder := [ Linear 2 32 (θ 5); BatchNorm1d 32 (θ 6); ReLU true;
                      Linear 32 32 (θ 7); BatchNorm1d 32 (θ 8); ReLU true;
                      Linear 32 input_dim (θ 9) ] |}
  | LinearAE_Spheres input_dim =>
      {| encoder := [ Linear input_dim 2 (θ 0) ];
         decoder := [ Linear 2 input_dim (θ 1) ] |}
  | LinearAEOrtho_Spheres input_dim =>
      (* the encoder is the bare linear module, called like a pipeline of
         one *)
      {| encoder := [ geotorch_orthogonal T (Linear input_dim 2 (θ 0)) ];
         decoder := [ Linear 2 input_dim (θ 1) ] |}
  end.

Definition encode (T : Torch) (self : AutoencoderModel) (x : TensorRef)
    (σ : Heap) : result (TensorRef * Heap) :=
  sequential T (encoder self) x σ.

Definition decode (T : Torch) (self : AutoencoderModel) (z : TensorRef)
    (σ : Heap) : result (TensorRef * Heap) :=
  sequential T (decoder self) z σ.

(** [forward]: the loss reads [x] and the reconstruction as they are in the
    heap once both passes have run. *)
Definition forward (T : Torch) (self : AutoencoderModel) (x : TensorRef)
    (σ : Heap) : result ((Scalar * gmap string Scalar) * Heap) :=
  '(latent, σ) ← encode T self x σ;
  '(x_reconst, σ) ← decode T self latent σ;
  vx ← deref σ x;
  vr ← deref σ x_reconst;
  reconst_error ← mse_loss T vx vr;
  mret ((reconst_error, {[ "reconstruction_error" := reconst_error ]}), σ).

(** *** OrthoProjectionModel

    The sub-modules live in the object's attribute dictionary under the
    names ["fc%d" % i]. None of its layers works in place, so values
    stand for tensors here. *)
Record OrthoProjection : Type := {
  n_projections : nat;
  attrs : gmap string Layer
}.

(** ["fc%d" % i] *)
Definition fc_name (i : nat) : string := "fc" +:+ pretty i.

Definition OrthoProjectionModel (T : Torch) (θ : nat → Params)
    (input_dims : list nat) (n_projections out_dim : nat) : OrthoProjection :=
  let n_input_dims := np_prod input_dims in
  let attrs :=
    foldl (λ attrs i,
             let attrs := <[fc_name i := Linear n_input_dims out_dim (θ i)]> attrs in
             alter (geotorch_orthogonal T) (fc_name i) attrs)
          ∅ (seq 0 n_projections) in
  {| n_projections := n_projections;
     attrs := <["flatten" := View [-1; Z.of_nat n_input_dims]%Z]> attrs |}.

(** One turn of the loop of [forward] (lines 326-327), on the list built so
    far; a turn that raises ends the loop. *)
Definition forward_step (T : Torch) (self : OrthoProjection)
    (x : ndarray Scalar) (outputs : result (list (ndarray Scalar))) (i : nat)
  : result (list (ndarray Scalar)) :=
  outputs ← outputs;
  fc ← getattr (fc_name i) (attrs self !! fc_name i);
  output ← apply_layer T fc x;
  mret (outputs ++ [output]).

(** [module(x)] on a tensor object, as the value of the result: [View] is
    the one layer here that looks at the layout of its input. *)
Definition apply_module (T : Torch) (module : Layer) (x : Tensor)
  : result (ndarray Scalar) :=
  match module with
  | View shape => y ← view T shape x; mret (value y)
  | _ => apply_layer T module (value x)
  end.

Definition OrthoProjectionModel_forward (T : Torch) (self : OrthoProjection)
    (x : Tensor) : result (list (ndarray Scalar)) :=
  let outputs := [] in
  flatten ← getattr "flatten" (attrs self !! "flatten");
  x ← apply_module T flatten x;
  foldl (forward_step T self x) (inr outputs) (seq 0 (n_projections self)).

(** *** Vocabulary of the statements *)

(** *** MLPAutoencoder._build_layers and RandomProjectionModel *)

(** [MLPAutoencoder._build_layers] (the static method of
    [MLPAutoencoder_Spheres] has the same text): one linear layer per pair of
    consecutive widths, numbered by [enumerate]; [final_bias] is not read. *)
Definition _build_layers (θ : nat → Params) (arch : list nat)
    (final_bias final_relu : bool) : list Layer :=
  foldl (λ layers '(i, (d_in, d_out)),
           let layers := layers ++ [Linear d_in d_out (θ i)] in
           if (Z.of_nat i =? Z.of_nat (length arch) - 2)%Z && negb final_relu
           then layers ++ [ReLU true]
           else layers)
        [] (imap (λ i pair, (i, pair)) (zip arch (drop 1 arch))).

(** [RandomProjectionModel.__init__]: [input_dim[0]] is the number of input
    channels. *)
Definition RandomProjectionModel (θ : nat → Params) (input_dim : list nat)
  : result (list Layer) :=
  in_channels ← getitem input_dim 0;
  mret [ Conv2d in_channels 12 4 2 1 (θ 0); ReLU false;
         Conv2d 12 24 4 2 1 (θ 1); ReLU false;
         Conv2d 24 48 4 2 1 (θ 2); ReLU false ].

(** The value a pipeline computes from a value, storage set aside: the
    layers' functions composed. *)
Fixpoint sequential_value (T : Torch) (modules : list Layer)
    (x : ndarray Scalar) : result (ndarray Scalar) :=
  match modules with
  | [] => inr x
  | module :: rest => y ← apply_layer T module x; sequential_value T rest y
  end.

(** [RandomProjectionModel.forward], on values: no layer of [projection]
    works in place. The layout of the projected tensor is torch's to
    choose, and the last line also needs it to admit the view; when the
    call returns, this is what it returns. *)
Definition RandomProjectionModel_forward (T : Torch) (projection : list Layer)
    (x : ndarray Scalar) : result (ndarray Scalar) :=
  batch_dim ← shape_getitem x 0;
  x ← sequential_value T projection x;
  tensor_view [Z.of_nat batch_dim; -1]%Z x.

(** The layers that write to tensors of their own while they run: in
    training mode [BatchNorm1d] overwrites its [running_mean], [running_var]
    and [num_batches_tracked]. The heap above holds the tensors that flow
    through a pipeline, not these. *)
Definition updates_buffers (module : Layer) : bool :=
  match module with
  | BatchNorm1d _ _ => true
  | _ => false
  end.

(** A pipeline leaves the storage of its input as it found it when no
    in-place layer runs before the first layer that allocates its output:
    until then the tensor at hand is the input or a view of it. *)
Fixpoint keeps_input (modules : list Layer) : bool :=
  match modules with
  | [] => true
  | View _ :: rest => keeps_input rest
  | ReLU true :: _ => false
  | _ :: _ => true
  end.

End Modules.

(** *** A small concrete torch

    Entries are integers and a layer's parameters are one integer; a linear
    layer fills its output rows with it, the other layers pass their input
    on; the loss is the sum of the squared differences; only contiguous
    tensors can be viewed. *)
Definition demo_torch_domains : TorchDomains := {| Scalar := Z; Params := Z |}.
#[local] Existing Instance demo_torch_domains.

(** The strides of a contiguous tensor of the given size. *)
Fixpoint contiguous_stride (size : list nat) : list nat :=
  match size with
  | [] => []
  | _ :: inner => foldr Nat.mul 1 inner :: contiguous_stride inner
  end.

Definition demo_torch : Torch :=
  {| relu := Z.max 0;
     layer_forward := λ module x,
       match module with
       | Linear i o w =>
           if (i =? 0) || negb (np_size x mod i =? 0)
           then inl (RuntimeError "mat1 and mat2 shapes cannot be multiplied")
           else inr (NDArray [np_size x / i; o] (replicate (np_size x / i * o) w))
       | _ => inr x
       end;
     mse_loss := λ a b,
       if decide (shape a = shape b)
       then inr (foldr Z.add 0 (zip_with (λ u v, (u - v) * (u - v)) (buffer a) (buffer b)))%Z
       else inl (RuntimeError "size mismatch");
     orthogonal := λ w, w;
     compute_stride := λ size stride newsize,
       if decide (stride = contiguous_stride size)
       then Some (contiguous_stride newsize)
       else None |}.

(** The projection of a [RandomProjectionModel] for one input channel. *)
Definition demo_projection : list (@Layer demo_torch_domains) :=
  [ Conv2d 1 12 4 2 1 0%Z; ReLU false; Conv2d 12 24 4 2 1 1%Z; ReLU false;
    Conv2d 24 48 4 2 1 2%Z; ReLU false ].

End Submodules.

(** * Facts *)

(** ** The trace monad *)
Section MonadFacts.
Import Py.
Context {E : Type}.

Lemma trace_bind {A B} (m : M E A) (k : A → M E B) :
  trace (m ≫= k) =
  trace m ++ match outcome m with inr a => trace (k a) | inl _ => [] end.
Proof.
  destruct m as [t [e|a]]; simpl.
  - by rewrite app_nil_r.
  - by destruct (k a).
Qed.

Lemma outcome_bind {A B} (m : M E A) (k : A → M E B) :
  outcome (m ≫= k) =
  match outcome m with inr a => outcome (k a) | inl e => inl e end.
Proof. destruct m as [t [e|a]]; simpl; [done|]. by destruct (k a). Qed.
End MonadFacts.

(** ** exp/fit_competitor.py *)
Section TrainFacts.
Import Py FitCompetitor.
Context `{Domains}.
Implicit Types (C : Collaborators) (evaluation : Evaluation) (_run : Run).

Local Arguments String.append : simpl never.
Local Arguments path_join : simpl never.
Local Arguments truthy : simpl never.
Local Arguments to_arrays : simpl never.
Local Arguments get_rundir : simpl never.
Local Arguments dict_comprehension : simpl never.
Local Arguments dict_update : simpl never.
Local Arguments shape_getitem : simpl never.
Local Arguments String.eqb : simpl never.
Local Arguments Nat.eqb : simpl never.
Local Arguments train_dataset : simpl never.
Local Arguments validation_dataset : simpl never.
Local Arguments test_dataset : simpl never.

(** Looking up the run directory emits nothing. *)
Lemma get_rundir_eq _run :
  get_rundir _run =
  ([], match observers _run with
       | [] => inr None
       | o :: _ => getattr "dir" (dir o)
       end).
Proof.
  unfold get_rundir, getitem. destruct (observers _run) as [|o os]; [done|].
  simpl. by destruct (dir o).
Qed.

Lemma get_rundir_eta _run : get_rundir _run = ([], outcome (get_rundir _run)).
Proof. by rewrite get_rundir_eq. Qed.

Lemma truthy_true (rundir : option string) :
  truthy rundir = true ↔ ∃ d, rundir = Some d ∧ d ≠ "".
Proof.
  unfold truthy. destruct rundir as [d|].
  - rewrite negb_true_iff, String.eqb_neq. split; [by exists d|].
    by intros (d' & [= <-] & ?).
  - split; [done|]. by intros (d & [=] & _).
Qed.

Lemma truthy_false (rundir : option string) :
  truthy rundir = false ↔ ∀ d, rundir = Some d → d = "".
Proof.
  unfold truthy. destruct rundir as [d|].
  - rewrite negb_false_iff, String.eqb_eq. split; [by intros -> d' [= <-]|].
    intros Hd. by apply Hd.
  - split; [by intros _ d [=]|done].
Qed.

(** Symbolic execution of [train], one statement at a time: each tactic
    splits on how the next fallible step ends, leaves the branch that
    raises as it is and reduces the run up to the following step. *)
Ltac run_split C val_size _rnd :=
  unfold train;
  rewrite (surjective_pairing
             (split_validation C (dataset_get_instance C true) val_size _rnd));
  change (split_validation C (dataset_get_instance C true) val_size _rnd).1
    with (train_dataset C val_size _rnd);
  change (split_validation C (dataset_get_instance C true) val_size _rnd).2
    with (validation_dataset C val_size _rnd);
  change (dataset_get_instance C false) with (test_dataset C);
  cbv zeta; unfold hasattr_transform;
  destruct (transform (model_get_instance C)) as [tf|] eqn:Htf;
  [ rewrite !(bool_decide_eq_true_2 (is_Some (Some tf))) by eauto
  | rewrite !(bool_decide_eq_false_2 (is_Some None)) by (by inversion 1) ].

Ltac run_arrays d :=
  simpl; destruct (to_arrays d) as [?e|[?data ?labels]] eqn:?Harr; simpl.

Ltac run_fit C :=
  unfold call_fit_transform;
  lazymatch goal with |- context [FitTransform _] => idtac end;
  destruct (fit_transform (model_get_instance C)) as [ft|] eqn:Hft; simpl;
  [ lazymatch goal with
    | _ : fit_transform _ = Some ?f |- context [?f ?st ?d] =>
        destruct (f st d) as [st' out] eqn:Hfit; simpl
    end | ].

Ltac run_rundir _run :=
  rewrite (get_rundir_eta _run);
  destruct (outcome (get_rundir _run)) as [?e|rundir] eqn:Hrundir; simpl;
  [ | destruct (truthy rundir) eqn:Htruthy; simpl ].

(** Lines 38-72: everything up to the evaluation. *)
Ltac run_fit_phase C val_size _rnd _run :=
  run_split C val_size _rnd;
  [ run_arrays (train_dataset C val_size _rnd)
  | run_arrays (test_dataset C) ];
  try (run_fit C; [ run_rundir _run | ]).

(** Lines 74-110, once [evaluation['active']] is known to hold. *)
Ltac run_eval_arrays C val_size _rnd evaluation :=
  simpl;
  lazymatch goal with
  | |- context [String.eqb (evaluate_on evaluation) "validation"] =>
      destruct (String.eqb (evaluate_on evaluation) "validation") eqn:Hon;
      [ run_arrays (validation_dataset C val_size _rnd)
      | run_arrays (test_dataset C) ];
      unfold call_transform;
      cbn [with_state transform state transform_leaves];
      match goal with Htf : transform _ = _ |- _ => rewrite ?Htf end; simpl
  | |- _ => idtac
  end.

Ltac run_evaluate C :=
  lazymatch goal with
  | |- context [shape_getitem ?l 1] =>
      destruct (shape_getitem l 1) as [?e|d1] eqn:Hshape; simpl;
      [ | destruct (d1 =? 2) eqn:Hdim; simpl;
          unfold call_evaluate_space; simpl;
          lazymatch goal with
          | |- context [evaluate_space C ?s ?d ?l' ?lb ?K] =>
              destruct (evaluate_space C s d l' lb K) as [?e|ev_result] eqn:Hev;
              simpl
          end ]
  | |- _ => idtac
  end.

Ltac run_eval_phase C val_size _rnd evaluation :=
  run_eval_arrays C val_size _rnd evaluation; run_evaluate C.

(** Membership in an explicit trace. *)
Ltac trace_inv He :=
  repeat (apply elem_of_cons in He as [He|He]; [try discriminate He|]);
  try (by apply elem_of_nil in He).
Ltac in_trace :=
  repeat first [ by apply list_elem_of_here | apply list_elem_of_further ].

(** C10. With [evaluation['active']] false a run returns the empty mapping
    and does nothing but log, fit the model and, when there is a run
    directory, pickle it: [evaluate_space], [transform], [np.savez] and
    [visualize_latents] are never called. When the fitted dataset loads,
    the model has [fit_transform] and the observer has a [dir], the run does
    return [{}], the fit is on the loaded data, and [model.pth] under the
    run directory is the one file written. *)
Theorem train_inactive C val_size evaluation _run _seed _rnd :
  active evaluation = false →
  let run := train C val_size evaluation _run _seed _rnd in
  let model := model_get_instance C in
  (∀ r, outcome run = inr r → r = ∅) ∧
  (∀ e, e ∈ trace run →
     match e with
     | LogWarn _ | LogInfo _ | FitTransform _ | PickleDump _ _ => True
     | _ => False
     end) ∧
  (∀ data labels ft rundir,
     to_arrays (if hasattr_transform model
                then train_dataset C val_size _rnd
                else test_dataset C) = inr (data, labels) →
     fit_transform model = Some ft →
     outcome (get_rundir _run) = inr rundir →
     outcome run = inr ∅ ∧
     FitTransform data ∈ trace run ∧
     (∀ path m, PickleDump path m ∈ trace run ↔
                ∃ d, rundir = Some d ∧ d ≠ "" ∧
                     path = path_join d "model.pth" ∧
                     m = fitted model ft data)).
Proof.
  intros Hact run model. subst run model. unfold fitted, hasattr_transform.
  run_fit_phase C val_size _rnd _run; rewrite ?Hact; unfold trace, outcome; simpl.
  all: split_and!;
    [ intros r ?; by simplify_eq
    | intros ev Hev; by trace_inv Hev; subst ev
    | intros data0 labels0 ft0 rundir0 ? ? ?; simplify_eq ].
  all: rewrite ?Hfit; simpl; split_and!; [done|in_trace|intros path m; split].
  all: lazymatch goal with
       | |- _ ∈ _ → _ => intros Hev; trace_inv Hev; simplify_eq
       | |- _ => intros (d & -> & ? & -> & ->)
       end.
  all: rewrite ?Htf.
  all: try (apply truthy_true in Htruthy as (d & -> & ?); exists d; by split_and!).
  all: try (simpl; by in_trace).
  all: by pose proof (proj1 (truthy_false _) Htruthy _ eq_refl).
Qed.

(** C4. A model object without [fit_transform] makes the run raise: nothing
    but logging has happened by then (no fit, no [evaluate_space], no file),
    and when the dataset to fit loads the exception is the
    [AttributeError] of the missing method. *)
Theorem train_without_fit_transform C val_size evaluation _run _seed _rnd :
  fit_transform (model_get_instance C) = None →
  let run := train C val_size evaluation _run _seed _rnd in
  (∃ e, outcome run = inl e) ∧
  (∀ ev, ev ∈ trace run → is_log ev = true) ∧
  (∀ data labels,
     to_arrays (if hasattr_transform (model_get_instance C)
                then train_dataset C val_size _rnd
                else test_dataset C) = inr (data, labels) →
     outcome run = inl (AttributeError "fit_transform")).
Proof.
  intros Hnone run. subst run.
  run_split C val_size _rnd;
    [ run_arrays (train_dataset C val_size _rnd)
    | run_arrays (test_dataset C) ];
    unfold call_fit_transform; rewrite ?Hnone; simpl;
    unfold trace, outcome; simpl.
  all: split_and!; [ by eexists | intros ev Hin; by trace_inv Hin; subst ev
                   | by intros ?? [=] ].
Qed.

(** C9. Without observers a run writes no file at all, and it is otherwise
    the run that a tracked experiment makes: against any run whose first
    observer has a [dir], the outcome (the returned mapping, or the
    exception) is the same, and so is the trace once the file writes are
    taken out. *)
Theorem train_without_observers C val_size evaluation _run _seed _rnd :
  observers _run = [] →
  let run := train C val_size evaluation _run _seed _rnd in
  (∀ ev, ev ∈ trace run → written_path ev = None) ∧
  (∀ _run' rundir,
     outcome (get_rundir _run') = inr rundir →
     let run' := train C val_size evaluation _run' _seed _rnd in
     outcome run' = outcome run ∧
     filter (λ ev, written_path ev = None) (trace run') = trace run).
Proof.
  intros Hobs run. subst run.
  assert (get_rundir _run = ([], inr None)) as Hnone
    by (by rewrite get_rundir_eq, Hobs).
  cut (∀ _run' rundir,
         outcome (get_rundir _run') = inr rundir →
         let run := train C val_size evaluation _run _seed _rnd in
         let run' := train C val_size evaluation _run' _seed _rnd in
         (∀ ev, ev ∈ trace run → written_path ev = None) ∧
         outcome run' = outcome run ∧
         filter (λ ev, written_path ev = None) (trace run') = trace run).
  { intros Hall. split.
    - apply (Hall _run None). by rewrite Hnone.
    - intros _run' rundir Hrd. by apply (Hall _run' rundir). }
  intros _run' rundir Hrd. simpl.
  run_split C val_size _rnd;
    [ run_arrays (train_dataset C val_size _rnd)
    | run_arrays (test_dataset C) ].
  all: try (split_and!; [ intros ev Hin; by trace_inv Hin; subst ev | done.. ]).
  all: run_fit C.
  all: try (split_and!; [ intros ev Hin; by trace_inv Hin; subst ev | done.. ]).
  all: rewrite Hnone, (get_rundir_eta _run'), Hrd; simpl;
    change (truthy None) with false; simpl;
    destruct (truthy rundir); simpl; destruct (active evaluation); simpl.
  all: try (split_and!; [ intros ev Hin; by trace_inv Hin; subst ev | done.. ]).
  all: run_eval_phase C val_size _rnd evaluation.
  all: try (split_and!; [ intros ev Hin; by trace_inv Hin; subst ev | done.. ]).
Qed.

Lemma get_rundir_head _run o rundir :
  head (observers _run) = Some o → dir o = Some rundir →
  get_rundir _run = ([], inr rundir).
Proof.
  intros Ho Hdir. rewrite get_rundir_eq.
  destruct (observers _run); simplify_eq/=. by rewrite Hdir.
Qed.

(** C6. When the first observer of the run has a directory [d], the dataset
    to fit loads and the model has [fit_transform], the fitted model is
    pickled to [model.pth] under [d]; with evaluation active the embedding
    that is evaluated and its labels are saved to [latents.npz] under [d];
    and a run writes no file anywhere else than under [d]. *)
Theorem train_artifacts C val_size evaluation _run _seed _rnd o d data labels ft :
  let model := model_get_instance C in
  let run := train C val_size evaluation _run _seed _rnd in
  head (observers _run) = Some o → dir o = Some (Some d) → d ≠ "" →
  to_arrays (if hasattr_transform model
             then train_dataset C val_size _rnd
             else test_dataset C) = inr (data, labels) →
  fit_transform model = Some ft →
  PickleDump (path_join d "model.pth") (fitted model ft data) ∈ trace run ∧
  (active evaluation = true →
     (transform model = None →
        Savez (path_join d "latents.npz") (ft (state model) data).2 labels
          ∈ trace run) ∧
     (∀ tf data' labels',
        transform model = Some tf →
        to_arrays (if String.eqb (evaluate_on evaluation) "validation"
                   then validation_dataset C val_size _rnd
                   else test_dataset C) = inr (data', labels') →
        Savez (path_join d "latents.npz")
          (tf (state (fitted model ft data)) data') labels' ∈ trace run)) ∧
  (∀ ev path,
     ev ∈ trace run → written_path ev = Some path →
     path ∈ [ path_join d "model.pth"; path_join d "latents.npz";
              path_join d "latent_visualization.pdf" ]).
Proof.
  intros model run Ho Hdir Hd. subst model run.
  pose proof (get_rundir_head _ _ _ Ho Hdir) as Hrd.
  assert (truthy (Some d) = true) as Htruthy by (apply truthy_true; eauto).
  unfold fitted, hasattr_transform.
  run_split C val_size _rnd; intros Harr Hft; rewrite Harr; simpl;
    unfold call_fit_transform; rewrite Hft; simpl;
    destruct (ft (state (model_get_instance C)) data) as [st' out] eqn:Hfit.
  all:  rewrite Hrd; simpl; rewrite Htruthy; simpl.
  all:  destruct (active evaluation); simpl.
  all:  run_eval_phase C val_size _rnd evaluation.
  all:  rewrite ?Htruthy, ?Htf; unfold trace; simpl.
  all: split_and!.
  all: try by in_trace.
  all: try (intros _; split;
      [ try done; intros _; by in_trace
      | try done; intros tf' data' labels' ? ?; simplify_eq; by in_trace ]).
  all: intros ev' path Hin Hpath; trace_inv Hin; simplify_eq/=; by in_trace.
Qed.

Lemma shape_getitem_inr (latent : ndarray Scalar) i d1 :
  shape_getitem latent i = inr d1 ↔ shape latent !! i = Some d1.
Proof. unfold shape_getitem. destruct (_ !! _); split; congruence. Qed.

(** C3, as the code has it. An embedding handed to [evaluate_space] whose
    second extent is 2 is also handed to [visualize_latents], with the file
    [latent_visualization.pdf] under the run directory, provided the run has
    a run directory; and that is the only visualization request a run makes:
    none without evaluation, none for another extent, none without a run
    directory. *)
Theorem train_visualization C val_size evaluation _run _seed _rnd :
  let run := train C val_size evaluation _run _seed _rnd in
  (∀ data latent labels K d,
     EvaluateSpace data latent labels K ∈ trace run →
     shape latent !! 1 = Some 2 →
     outcome (get_rundir _run) = inr (Some d) → d ≠ "" →
     VisualizeLatents latent labels (path_join d "latent_visualization.pdf")
       ∈ trace run) ∧
  (∀ latent labels save_file,
     VisualizeLatents latent labels save_file ∈ trace run →
     active evaluation = true ∧
     shape latent !! 1 = Some 2 ∧
     (∃ d, outcome (get_rundir _run) = inr (Some d) ∧ d ≠ "" ∧
           save_file = path_join d "latent_visualization.pdf") ∧
     (∃ data K, EvaluateSpace data latent labels K ∈ trace run)).
Proof.
  intros run. subst run.
  run_fit_phase C val_size _rnd _run;
    try (split; intros; by match goal with Hin : _ ∈ _ |- _ =>
                             unfold trace in Hin; simpl in Hin; trace_inv Hin
                           end).
  all: destruct (active evaluation) eqn:Hact; simpl;
    run_eval_phase C val_size _rnd evaluation; unfold trace, outcome; simpl.
  all: try apply shape_getitem_inr in Hshape.
  all: try (rewrite ?Nat.eqb_eq, ?Nat.eqb_neq in Hdim).
  all: split;
    [ intros X latent' labels' K d Hin Hdim' [= ->] Hd;
      trace_inv Hin; simplify_eq; try by in_trace
    | intros latent' labels' save_file Hin; trace_inv Hin; simplify_eq ].
  all: try by pose proof (proj1 (truthy_false _) Htruthy _ eq_refl).
  all: apply truthy_true in Htruthy as (d & -> & ?).
  all: split_and!; [ done | done | by exists d | do 2 eexists; by in_trace ].
Qed.

(** C2. A model object without [transform]: the two warnings open the trace;
    whatever is fitted is the test dataset, and it is fitted as soon as that
    dataset loads and the model has [fit_transform]; whatever is evaluated is
    that same array object, as the fit left it, with the output of
    [fit_transform] on it as the embedding, and it is evaluated as soon as
    evaluation is active, the run directory lookup does not raise and the
    embedding has a second extent. *)
Theorem train_fit_only_model C val_size evaluation _run _seed _rnd :
  let model := model_get_instance C in
  let run := train C val_size evaluation _run _seed _rnd in
  transform model = None →
  [ LogWarn "Model does not support separate training and prediction.";
    LogWarn "Directly running on test dataset!" ] `prefix_of` trace run ∧
  (∀ X, FitTransform X ∈ trace run →
        ∃ labels, to_arrays (test_dataset C) = inr (X, labels)) ∧
  (∀ X' latent labels K,
     EvaluateSpace X' latent labels K ∈ trace run →
     ∃ X, FitTransform X ∈ trace run ∧
          to_arrays (test_dataset C) = inr (X, labels) ∧
          X' = fit_transform_leaves model (state model) X ∧
          ∃ ft, fit_transform model = Some ft ∧
                latent = (ft (state model) X).2) ∧
  (∀ X labels ft,
     to_arrays (test_dataset C) = inr (X, labels) →
     fit_transform model = Some ft →
     FitTransform X ∈ trace run ∧
     (active evaluation = true →
      (∃ rundir, outcome (get_rundir _run) = inr rundir) →
      is_Some (shape (ft (state model) X).2 !! 1) →
      EvaluateSpace (fit_transform_leaves model (state model) X)
        (ft (state model) X).2 labels (k evaluation) ∈ trace run)).
Proof.
  intros model run Hnone. subst model run.
  run_fit_phase C val_size _rnd _run; try congruence.
  all: try (destruct (active evaluation) eqn:Hact; simpl;
            run_eval_phase C val_size _rnd evaluation).
  all: try apply shape_getitem_inr in Hshape.
  all: unfold trace, outcome; simpl.
  all: split_and!;
    [ by eexists
    | intros X Hin; trace_inv Hin; simplify_eq; by eexists
    | intros X latent' labels' K Hin; trace_inv Hin; simplify_eq;
      eexists;
      (split_and!; [ by in_trace | done | done
                   | eexists; split; [done|]; by rewrite Hfit ])
    | intros X labels' ft' ? ?; simplify_eq; try rewrite Hfit; simpl;
      (split; [ try by in_trace
              | intros ? [rundir' ?] [d1' ?]; simplify_eq; try by in_trace ]) ].
  all: try (unfold shape_getitem in Hshape; by destruct (shape out !! 1)).
Qed.

(** The arrays of a dataset have one row and one label per sample. *)
Lemma stack_flat_len (xs : list (ndarray Scalar)) X :
  stack_flat xs = inr X → np_len X = Some (length xs).
Proof.
  unfold stack_flat, mbind, result_bind.
  destruct (np_stack xs) as [e|a]; [done|].
  unfold reshape_rows. destruct (_ || _); [done|]. by intros [= <-].
Qed.

Lemma to_arrays_len (dataset : list (ndarray Scalar * Label)) X labels :
  to_arrays dataset = inr (X, labels) →
  np_len X = Some (length labels) ∧ length labels = length dataset.
Proof.
  unfold to_arrays, zip_star, mbind, mret, result_bind, result_ret.
  destruct dataset as [|sample rest]; [done|].
  destruct (stack_flat _) as [e|X'] eqn:Hstack; [done|].
  intros [= <- <-]. apply stack_flat_len in Hstack.
  split; [rewrite Hstack|]; simpl; by rewrite ?length_fmap.
Qed.

(** C5, as the code has it. Whatever relation [R] ties an embedded row to
    the sample row it embeds: if [transform] and [fit_transform] answer with
    an array aligned with their argument and leave the array they are given
    as it was, then every call of [evaluate_space] gets a data array and a
    latent array that are aligned, with one label per row. *)
Theorem train_alignment C val_size evaluation _run _seed _rnd
    (R : list Scalar → list Scalar → Prop) :
  let model := model_get_instance C in
  let run := train C val_size evaluation _run _seed _rnd in
  (∀ tf st X, transform model = Some tf → aligned R X (tf st X)) →
  (∀ ft st X, fit_transform model = Some ft → aligned R X (ft st X).2) →
  (∀ st X, transform_leaves model st X = X) →
  (∀ st X, fit_transform_leaves model st X = X) →
  ∀ X latent labels K,
    EvaluateSpace X latent labels K ∈ trace run →
    aligned R X latent ∧ np_len X = Some (length labels).
Proof.
  intros model run Htransform Hfit_transform Htf_keeps Hft_keeps
    X latent labels K.
  subst model run.
  run_fit_phase C val_size _rnd _run;
    try (intros Hin; by trace_inv Hin).
  all: destruct (active evaluation) eqn:Hact; simpl;
    run_eval_phase C val_size _rnd evaluation; unfold trace; simpl.
  all: rewrite ?Htf_keeps, ?Hft_keeps.
  all: intros Hin; trace_inv Hin; simplify_eq.
  all: split;
    [ first
        [ by apply Htransform
        | lazymatch goal with
          | |- aligned _ ?x _ =>
              pose proof (Hfit_transform _ (state (model_get_instance C)) x
                            eq_refl) as Ha;
              by rewrite Hfit in Ha
          end ]
    | lazymatch goal with
      | Hx : to_arrays _ = inr (?x, ?l) |- np_len ?x = Some (length ?l) =>
          exact (proj1 (to_arrays_len _ _ _ Hx))
      end ].
Qed.

(** *** The prefixed result mapping *)

Lemma foldl_insert_union (l : list (string * Metric)) (acc : gmap string Metric) :
  NoDup l.*1 →
  foldl (λ acc kv, <[kv.1 := kv.2]> acc) acc l = list_to_map l ∪ acc.
Proof.
  revert acc. induction l as [|[key v] l IH]; intros acc Hnodup.
  - simpl. by rewrite (left_id_L ∅ (∪)).
  - rewrite fmap_cons in Hnodup. apply NoDup_cons in Hnodup as [Hfresh Hnodup].
    simpl. rewrite IH by done.
    rewrite <- insert_union_l. symmetry. apply insert_union_r.
    by apply not_elem_of_list_to_map_1.
Qed.

(** Under an injective renaming no two entries collide, and the
    comprehension is the map with its keys renamed. *)
Lemma dict_comprehension_kmap (f : string → string) `{!Inj (=) (=) f}
    (d : gmap string Metric) :
  dict_comprehension f d = kmap f d.
Proof.
  unfold dict_comprehension, kmap.
  transitivity (foldl (λ acc kv, <[kv.1 := kv.2]> acc) (∅ : gmap string Metric)
                  (prod_map f id <$> map_to_list d));
    [by rewrite foldl_fmap|].
  rewrite foldl_insert_union, (right_id_L ∅ (∪)); [done|].
  assert ((prod_map f id <$> map_to_list d).*1 = f <$> (map_to_list d).*1)
    as -> by (by rewrite <- !list_fmap_compose).
  apply NoDup_fmap_2; [done|]. apply NoDup_fst_map_to_list.
Qed.

Lemma prefixed_result_lookup (evaluate_on : string) (ev_result : gmap string Metric)
    key v :
  dict_update ∅ (dict_comprehension (λ key, (evaluate_on +:+ "_") +:+ key)
                   ev_result) !! key = Some v ↔
  ∃ metric, key = (evaluate_on +:+ "_") +:+ metric ∧ ev_result !! metric = Some v.
Proof.
  unfold dict_update. rewrite (right_id_L ∅ (∪)).
  rewrite (dict_comprehension_kmap (String.app (evaluate_on +:+ "_"))).
  apply lookup_kmap_Some, _.
Qed.

(** *** Further facts about the run *)

Lemma forallb_shape (a : ndarray Scalar) (rest : list (ndarray Scalar)) :
  forallb (λ b, bool_decide (shape b = shape a)) rest = true ↔
  Forall (λ b, shape b = shape a) rest.
Proof.
  induction rest as [|b rest IH]; simpl.
  - split; [by constructor|done].
  - rewrite andb_true_iff, IH, bool_decide_eq_true, Forall_cons. done.
Qed.

Lemma stack_flat_cons (a : ndarray Scalar) (rest : list (ndarray Scalar)) :
  stack_flat (a :: rest) =
  if forallb (λ b, bool_decide (shape b = shape a)) rest
  then inr (NDArray [S (length rest); np_size a]
              (concat (buffer <$> a :: rest)))
  else inl (ValueError "all input arrays must have the same shape").
Proof.
  unfold stack_flat, np_stack. destruct (forallb _ rest); [|done].
  cbn [mbind result_bind]. unfold reshape_rows.
  change (np_size (NDArray (length (a :: rest) :: shape a) _))
    with (length (a :: rest) * np_size a).
  cbn [length]. rewrite (Nat.mul_comm (S _)), Nat.Div0.mod_mul.
  rewrite Nat.div_mul by done. done.
Qed.

Lemma to_arrays_inv (dataset : list (ndarray Scalar * Label)) X labels :
  to_arrays dataset = inr (X, labels) →
  ∃ sample rest,
    dataset = sample :: rest ∧
    Forall (λ other, shape other.1 = shape sample.1) rest ∧
    X = NDArray [length dataset; np_size sample.1]
          (concat (buffer <$> dataset.*1)) ∧
    labels = dataset.*2.
Proof.
  unfold to_arrays, zip_star. destruct dataset as [|sample rest]; [done|].
  cbn -[stack_flat]. rewrite stack_flat_cons.
  destruct (forallb _ _) eqn:Hshapes; cbn [mbind result_bind]; [|done].
  apply forallb_shape, Forall_fmap in Hshapes.
  intros [= <- <-]. exists sample, rest. rewrite length_fmap. by split_and!.
Qed.

(** X1. A dataset turns into arrays exactly when it has a first sample and
    every other sample has the shape of the first. The data array then has
    one row per sample, as wide as one sample has entries, and holds the
    samples' entries one sample after the other; the labels are the second
    components in order. Flattening after stacking never fails. *)
Theorem to_arrays_spec (dataset : list (ndarray Scalar * Label)) X labels :
  to_arrays dataset = inr (X, labels) ↔
  ∃ sample rest,
    dataset = sample :: rest ∧
    Forall (λ other, shape other.1 = shape sample.1) rest ∧
    X = NDArray [length dataset; np_size sample.1]
          (concat (buffer <$> dataset.*1)) ∧
    labels = dataset.*2.
Proof.
  split; [apply to_arrays_inv|].
  intros (sample & rest & -> & Hall & -> & ->).
  unfold to_arrays, zip_star. cbn -[stack_flat]. rewrite stack_flat_cons.
  apply (proj2 (Forall_fmap fst (λ b, shape b = shape sample.1) rest)),
    forallb_shape in Hall.
  rewrite Hall. cbn [mbind result_bind]. by rewrite length_fmap.
Qed.

Lemma concat_row (rows : list (list Scalar)) (w i : nat) (row : list Scalar) :
  Forall (λ r, length r = w) rows →
  rows !! i = Some row →
  take w (drop (i * w) (concat rows)) = row.
Proof.
  revert i. induction rows as [|r rows IH]; intros i Hrows Hi; [done|].
  apply Forall_cons in Hrows as [Hr Hrows]. cbn [concat].
  destruct i as [|i]; cbn [lookup list_lookup] in Hi.
  - injection Hi as ->. rewrite Nat.mul_0_l, drop_0. by apply take_app_length'.
  - rewrite drop_app_ge by lia.
    replace (S i * w - length r) with (i * w) by lia. by apply IH.
Qed.

(** X2. Index alignment of the arrays: when every sample holds as many
    entries as its shape says, row [i] of the data array is the entries of
    sample [i], and label [i] is its label. *)
Theorem to_arrays_rows (dataset : list (ndarray Scalar * Label)) X labels i s l :
  to_arrays dataset = inr (X, labels) →
  Forall (λ sample, length (buffer sample.1) = np_size sample.1) dataset →
  dataset !! i = Some (s, l) →
  np_row X i = Some (buffer s) ∧ labels !! i = Some l.
Proof.
  intros (sample & rest & -> & Hshapes & -> & ->)%to_arrays_inv Hwf Hi.
  split; [|by rewrite list_lookup_fmap, Hi].
  unfold np_row. cbn [shape buffer foldr].
  rewrite decide_True by (by eapply lookup_lt_Some).
  f_equal. rewrite Nat.mul_1_r. apply concat_row.
  - rewrite !Forall_fmap. apply Forall_cons in Hwf as [Hwf0 Hwf].
    apply Forall_cons. split; [done|].
    eapply Forall_impl; [apply Forall_and; split; [apply Hshapes|apply Hwf]|].
    intros other [Hshape Hlen]. simpl. rewrite Hlen. unfold np_size.
    by rewrite Hshape.
  - by rewrite !list_lookup_fmap, Hi.
Qed.

(** X3. An empty dataset to fit (an empty training split for a model with
    [transform], an empty test set otherwise) makes the run raise the
    [ValueError] of the unpacking, with nothing done but logging: the model
    is not fitted. *)
Theorem train_empty_dataset C val_size evaluation _run _seed _rnd :
  let run := train C val_size evaluation _run _seed _rnd in
  (if hasattr_transform (model_get_instance C)
   then train_dataset C val_size _rnd
   else test_dataset C) = [] →
  outcome run
  = inl (ValueError "not enough values to unpack (expected 2, got 0)") ∧
  ∀ ev, ev ∈ trace run → is_log ev = true.
Proof.
  intros run. subst run. unfold hasattr_transform.
  run_split C val_size _rnd; intros ->; simpl; unfold trace, outcome; simpl.
  all: split; [done|]; intros ev Hin; by trace_inv Hin; subst ev.
Qed.

(** X4. A first observer without a [dir] attribute is not the caught case:
    once the model is fitted the run raises [AttributeError], having written
    no file and evaluated nothing. *)
Theorem train_observer_without_dir C val_size evaluation _run _seed _rnd
    o data labels ft :
  let model := model_get_instance C in
  let run := train C val_size evaluation _run _seed _rnd in
  head (observers _run) = Some o → dir o = None →
  to_arrays (if hasattr_transform model
             then train_dataset C val_size _rnd
             else test_dataset C) = inr (data, labels) →
  fit_transform model = Some ft →
  outcome run = inl (AttributeError "dir") ∧
  FitTransform data ∈ trace run ∧
  ∀ ev, ev ∈ trace run → written_path ev = None ∧ event_rank ev ≠ Some 5.
Proof.
  intros model run Ho Hdir. subst model run.
  assert (get_rundir _run = ([], inl (AttributeError "dir"))) as Hrd.
  { rewrite get_rundir_eq. destruct (observers _run); simplify_eq/=.
    by rewrite Hdir. }
  unfold hasattr_transform.
  run_split C val_size _rnd; intros Harr Hft; rewrite Harr; simpl;
    unfold call_fit_transform; rewrite Hft; simpl;
    destruct (ft (state (model_get_instance C)) data) as [st' out];
    rewrite Hrd; unfold trace, outcome; simpl.
  all: split_and!; [done | by in_trace |].
  all: intros ev Hin; by trace_inv Hin; subst ev.
Qed.

(** X5. [evaluate_space] is never handed an embedding without a second
    axis: the run has indexed [latent.shape[1]] by the time of the call. *)
Theorem train_evaluates_two_axes C val_size evaluation _run _seed _rnd
    X latent labels K :
  EvaluateSpace X latent labels K
    ∈ trace (train C val_size evaluation _run _seed _rnd) →
  is_Some (shape latent !! 1).
Proof.
  run_fit_phase C val_size _rnd _run; try (intros Hin; by trace_inv Hin).
  all: destruct (active evaluation) eqn:Hact; simpl;
    run_eval_phase C val_size _rnd evaluation; unfold trace; simpl.
  all: intros Hin; trace_inv Hin; simplify_eq.
  all: apply shape_getitem_inr in Hshape; by eexists.
Qed.

(** X6. A model without [transform] whose [fit_transform] answers with a
    one-dimensional array: an active evaluation raises the [IndexError] of
    [latent.shape[1]] and [evaluate_space] is not called, but with a run
    directory the model and the embedding have been written by then. *)
Theorem train_flat_embedding C val_size evaluation _run _seed _rnd
    X labels ft rundir :
  let model := model_get_instance C in
  let run := train C val_size evaluation _run _seed _rnd in
  transform model = None → active evaluation = true →
  to_arrays (test_dataset C) = inr (X, labels) →
  fit_transform model = Some ft →
  outcome (get_rundir _run) = inr rundir →
  shape (ft (state model) X).2 !! 1 = None →
  outcome run = inl (IndexError "tuple index out of range") ∧
  (∀ ev, ev ∈ trace run → event_rank ev ≠ Some 5) ∧
  (∀ d, rundir = Some d → d ≠ "" →
        PickleDump (path_join d "model.pth") (fitted model ft X) ∈ trace run ∧
        Savez (path_join d "latents.npz") (ft (state model) X).2 labels
          ∈ trace run).
Proof.
  intros model run Hnone Hact Harr Hft Hrd Hflat. subst model run.
  unfold fitted, with_state. rewrite Hnone.
  assert (shape_getitem (ft (state (model_get_instance C)) X).2 1
          = inl (IndexError "tuple index out of range")) as Hshape
    by (unfold shape_getitem; by rewrite Hflat).
  run_split C val_size _rnd; [congruence|].
  rewrite Harr; simpl; unfold call_fit_transform, with_state;
    rewrite Hft, ?Htf; simpl.
  destruct (ft (state (model_get_instance C)) X) as [st' out] eqn:Hfit.
  rewrite (get_rundir_eta _run), Hrd; simpl.
  destruct (truthy rundir) eqn:Htruthy; simpl; rewrite Hact; simpl;
    simpl in Hshape; rewrite Hshape; unfold trace, outcome; simpl.
  all: split_and!;
    [ done
    | intros ev Hin; by trace_inv Hin; subst ev
    | intros d -> Hd ].
  - split; by in_trace.
  - by pose proof (proj1 (truthy_false _) Htruthy _ eq_refl).
Qed.

(** X7. A model with [transform] is fitted on the training split and on
    nothing else, and no warning is logged; what is evaluated is the
    validation split when [evaluate_on] is ['validation'] and the test set
    for any other value, as [transform] left the array, embedded by
    [transform] on the model as [fit_transform] left it. *)
Theorem train_transform_model C val_size evaluation _run _seed _rnd embed :
  let model := model_get_instance C in
  let run := train C val_size evaluation _run _seed _rnd in
  transform model = Some embed →
  (∀ msg, LogWarn msg ∉ trace run) ∧
  (∀ X, FitTransform X ∈ trace run →
        ∃ labels, to_arrays (train_dataset C val_size _rnd) = inr (X, labels)) ∧
  (∀ X' latent labels K,
     EvaluateSpace X' latent labels K ∈ trace run →
     ∃ X ft data labels',
       Transform X ∈ trace run ∧
       to_arrays (if String.eqb (evaluate_on evaluation) "validation"
                  then validation_dataset C val_size _rnd
                  else test_dataset C) = inr (X, labels) ∧
       fit_transform model = Some ft ∧
       to_arrays (train_dataset C val_size _rnd) = inr (data, labels') ∧
       latent = embed (ft (state model) data).1 X ∧
       X' = transform_leaves model (ft (state model) data).1 X).
Proof.
  intros model run Hsome. subst model run.
  run_fit_phase C val_size _rnd _run; try congruence.
  all: try (destruct (active evaluation) eqn:Hact; simpl;
            run_eval_phase C val_size _rnd evaluation).
  all: unfold trace, outcome; simpl.
  all: split_and!;
    [ intros msg Hin; by trace_inv Hin
    | intros X Hin; trace_inv Hin; simplify_eq; by eexists
    | intros X latent' labels' K Hin; trace_inv Hin; simplify_eq;
      eexists _, _, _, _;
      (split_and!; [ by in_trace | done | done | done | | ]);
      by rewrite Hfit ].
Qed.

(** X8. The external calls of a run come in the order of the source text,
    each at most once: fit, pickle the model, transform, save the latents,
    visualize, evaluate. *)
Theorem train_call_order C val_size evaluation _run _seed _rnd :
  omap event_rank (trace (train C val_size evaluation _run _seed _rnd))
    `sublist_of` [0; 1; 2; 3; 4; 5].
Proof.
  run_fit_phase C val_size _rnd _run.
  all: try (destruct (active evaluation) eqn:Hact; simpl;
            run_eval_phase C val_size _rnd evaluation).
  all: unfold trace; simpl.
  all: repeat first [ apply sublist_nil_l | apply sublist_skip | apply sublist_cons ].
Qed.

(** X9. Once [evaluate_space] has been called, how it ends is how the run
    ends: its exception is the run's exception (no partial result is
    returned), and its mapping is returned with every key renamed by the
    prefix. The neighbourhood size passed is [evaluation['k']]. *)
Theorem train_outcome_of_evaluation C val_size evaluation _run _seed _rnd
    X latent labels K :
  let run := train C val_size evaluation _run _seed _rnd in
  EvaluateSpace X latent labels K ∈ trace run →
  K = k evaluation ∧
  outcome run =
  match evaluate_space C _seed X latent labels K with
  | inl e => inl e
  | inr ev_result =>
      inr (kmap (String.app (evaluate_on evaluation +:+ "_")) ev_result)
  end.
Proof.
  intros run. subst run.
  run_fit_phase C val_size _rnd _run; try (intros Hin; by trace_inv Hin).
  all: destruct (active evaluation) eqn:Hact; simpl;
    run_eval_phase C val_size _rnd evaluation; unfold trace, outcome; simpl.
  all: intros Hin; trace_inv Hin; simplify_eq.
  all: split; [done|]; rewrite Hev; try done.
  all: unfold dict_update; rewrite (right_id_L ∅ (∪)).
  all: by rewrite (dict_comprehension_kmap
                     (String.app (evaluate_on evaluation +:+ "_"))).
Qed.

(** X10. Prefixing never merges two metrics: the returned mapping has as
    many entries as the mapping [evaluate_space] returned. *)
Theorem prefixed_result_size (evaluate_on : string) (ev_result : gmap string Metric) :
  size (dict_update ∅ (dict_comprehension (λ key, (evaluate_on +:+ "_") +:+ key)
                         ev_result))
  = size ev_result.
Proof.
  unfold dict_update. rewrite (right_id_L ∅ (∪)).
  rewrite (dict_comprehension_kmap (String.app (evaluate_on +:+ "_"))).
  unfold kmap. rewrite map_size_list_to_map.
  - by rewrite length_fmap, length_map_to_list.
  - assert ((prod_map (String.app (evaluate_on +:+ "_")) id
               <$> map_to_list ev_result).*1
            = String.app (evaluate_on +:+ "_") <$> (map_to_list ev_result).*1)
      as -> by (by rewrite <- !list_fmap_compose).
    apply NoDup_fmap_2; [apply _|]. apply NoDup_fst_map_to_list.
Qed.

Lemma path_join_inj (d b1 b2 : string) :
  String.prefix "/" b1 = false → String.prefix "/" b2 = false →
  path_join d b1 = path_join d b2 → b1 = b2.
Proof.
  unfold path_join. intros -> ->. destruct (_ || _).
  - by intros ?%(inj (String.app d)).
  - by intros ?%(inj (String.app d))%(inj (String.app "/")).
Qed.

(** X11. The three files a run can write under one run directory have three
    different paths, whatever the directory (with or without a trailing
    separator): no artifact overwrites another. *)
Theorem train_artifact_paths_distinct (d : string) :
  NoDup [ path_join d "model.pth"; path_join d "latents.npz";
          path_join d "latent_visualization.pdf" ].
Proof.
  repeat apply NoDup_cons_2; [| |apply not_elem_of_nil|apply NoDup_nil_2].
  - intros Hin. repeat (apply elem_of_cons in Hin as [Hin|Hin];
      [by apply path_join_inj in Hin|]). by apply elem_of_nil in Hin.
  - intros Hin. repeat (apply elem_of_cons in Hin as [Hin|Hin];
      [by apply path_join_inj in Hin|]). by apply elem_of_nil in Hin.
Qed.

(** X12. Only the first observer is consulted: the observers after it
    change nothing of a run. *)
Theorem train_first_observer_only C val_size evaluation _seed _rnd o os :
  train C val_size evaluation {| observers := o :: os |} _seed _rnd
  = train C val_size evaluation {| observers := [o] |} _seed _rnd.
Proof. unfold train. by rewrite !get_rundir_eq. Qed.

(** X13. A first observer whose [dir] is [None] or the empty string is as
    good as no observer: the run is, call for call, the untracked run, and
    so writes no file. *)
Theorem train_falsy_rundir C val_size evaluation _run _seed _rnd o :
  head (observers _run) = Some o →
  dir o = Some None ∨ dir o = Some (Some "") →
  train C val_size evaluation _run _seed _rnd
  = train C val_size evaluation {| observers := [] |} _seed _rnd.
Proof.
  intros Ho Hdir.
  assert (get_rundir {| observers := [] |} = ([], inr None)) as Hnone by done.
  assert (∃ rundir, get_rundir _run = ([], inr rundir) ∧ truthy rundir = false)
    as (rundir & Hrd & Hfalsy).
  { destruct Hdir as [Hdir|Hdir]; eexists;
      (split; [by apply (get_rundir_head _ o)|done]). }
  run_split C val_size _rnd;
    [ run_arrays (train_dataset C val_size _rnd)
    | run_arrays (test_dataset C) ]; try done.
  all: run_fit C; try done.
  all: rewrite ?Hnone, Hrd; simpl; rewrite Hfalsy;
    try change (truthy None) with false; simpl.
  all: destruct (active evaluation); simpl; try done.
  all: run_eval_phase C val_size _rnd evaluation; try done.
  all: by rewrite ?andb_false_r.
Qed.
End TrainFacts.

(** *** The concrete run *)
Section TrainExamples.
Import Py FitCompetitor.
#[local] Existing Instance demo_domains.

Lemma train_inactive_witness :
  let run := train (demo_world demo_pca) 1 (demo_evaluation false "test")
               demo_tracked 0 0 in
  outcome run = inr ∅ ∧ FitTransform (NDArray [2; 2] [1; 2; 3; 4]%Z) ∈ trace run.
Proof.
  intros run.
  destruct (train_inactive (demo_world demo_pca) 1
              (demo_evaluation false "test") demo_tracked 0 0 eq_refl)
    as (_ & _ & Hrun).
  destruct (Hrun (NDArray [2; 2] [1; 2; 3; 4]%Z) [0; 1] (λ st X, (S st, X))
              (Some "runs/1"))
    as (Hout & Hfit & _); [reflexivity..|].
  exact (conj Hout Hfit).
Defined.

Lemma train_without_fit_transform_witness :
  outcome (train (demo_world demo_bare) 1 (demo_evaluation true "test")
             demo_tracked 0 0)
  = inl (AttributeError "fit_transform").
Proof.
  destruct (train_without_fit_transform (demo_world demo_bare) 1
              (demo_evaluation true "test") demo_tracked 0 0 eq_refl)
    as (_ & _ & Herr).
  apply (Herr (NDArray [2; 2] [7; 8; 9; 10]%Z) [1; 0]). reflexivity.
Defined.

Lemma train_without_observers_witness :
  let run := train (demo_world demo_pca) 1 (demo_evaluation true "test")
               demo_untracked 0 0 in
  let run' := train (demo_world demo_pca) 1 (demo_evaluation true "test")
                demo_tracked 0 0 in
  (∀ ev, ev ∈ trace run → written_path ev = None) ∧ outcome run' = outcome run.
Proof.
  intros run run'.
  destruct (train_without_observers (demo_world demo_pca) 1
              (demo_evaluation true "test") demo_untracked 0 0 eq_refl)
    as (Hnofile & Hsame).
  split; [exact Hnofile|].
  exact (proj1 (Hsame demo_tracked (Some "runs/1") eq_refl)).
Defined.

Lemma train_artifacts_witness :
  let run := train (demo_world demo_pca) 1 (demo_evaluation true "validation")
               demo_tracked 0 0 in
  PickleDump "runs/1/model.pth"
    (fitted demo_pca (λ st X, (S st, X)) (NDArray [2; 2] [1; 2; 3; 4]%Z))
    ∈ trace run ∧
  Savez "runs/1/latents.npz" (NDArray [1; 2] [5; 6]%Z) [0] ∈ trace run.
Proof.
  intros run.
  destruct (train_artifacts (demo_world demo_pca) 1
              (demo_evaluation true "validation") demo_tracked 0 0
              {| dir := Some (Some "runs/1") |} "runs/1"
              (NDArray [2; 2] [1; 2; 3; 4]%Z) [0; 1] (λ st X, (S st, X))
              eq_refl eq_refl ltac:(discriminate) eq_refl eq_refl)
    as (Hmodel & Hlatents & _).
  split; [exact Hmodel|].
  exact (proj2 (Hlatents eq_refl) (λ st X, X) (NDArray [1; 2] [5; 6]%Z) [0]
           eq_refl eq_refl).
Defined.

Lemma train_visualization_witness :
  VisualizeLatents (NDArray [2; 2] [7; 8; 9; 10]%Z) [1; 0]
    "runs/1/latent_visualization.pdf"
  ∈ trace (train (demo_world demo_pca) 1 (demo_evaluation true "test")
             demo_tracked 0 0).
Proof.
  apply (proj1 (train_visualization (demo_world demo_pca) 1
                  (demo_evaluation true "test") demo_tracked 0 0)
           (NDArray [2; 2] [7; 8; 9; 10]%Z) (NDArray [2; 2] [7; 8; 9; 10]%Z)
           [1; 0] 15%Z "runs/1");
    [ vm_compute; repeat first [ by left | right ]
    | reflexivity | reflexivity | discriminate ].
Defined.

Lemma train_fit_only_model_witness :
  let run := train (demo_world demo_tsne) 1 (demo_evaluation true "test")
               demo_tracked 0 0 in
  let X := NDArray [2; 2] [7; 8; 9; 10]%Z in
  FitTransform X ∈ trace run ∧ EvaluateSpace X X [1; 0] 15 ∈ trace run.
Proof.
  intros run X.
  destruct (train_fit_only_model (demo_world demo_tsne) 1
              (demo_evaluation true "test") demo_tracked 0 0 eq_refl)
    as (_ & _ & _ & Hdoes).
  destruct (Hdoes X [1; 0] (λ st X, (S st, X)) eq_refl eq_refl)
    as (Hfit & Heval).
  split; [exact Hfit|].
  apply Heval; [reflexivity | by eexists | by eexists].
Defined.

Lemma train_alignment_witness :
  let X := NDArray [2; 2] [7; 8; 9; 10]%Z in
  aligned eq X X ∧ np_len X = Some (length [1; 0]).
Proof.
  intros X.
  assert (∀ Y : ndarray Z, aligned eq Y Y) as Hid
    by (intros Y; split; [done|]; intros i x ->; by eexists).
  apply (λ Htf Hft,
           train_alignment (demo_world demo_pca) 1 (demo_evaluation true "test")
             demo_tracked 0 0 eq Htf Hft (λ st Y, eq_refl) (λ st Y, eq_refl)
             X X [1; 0] 15%Z).
  - intros tf st Y [= <-]. apply Hid.
  - intros ft st Y [= <-]. apply Hid.
  - vm_compute. repeat first [ by left | right ].
Defined.

(** C5 as stated fails. The model returns, row for row, the rows it was
    given, so each of its methods answers with one output row per input row
    in input order; but [fit_transform] rescales the array it is given in
    place, and that array object is what [evaluate_space] receives as the
    data: its rows are no longer the rows that were embedded. *)
Lemma train_alignment_overwritten :
  let model := demo_inplace in
  let run := train (demo_world model) 1 (demo_evaluation true "test")
               demo_untracked 0 0 in
  (∀ tf st X, transform model = Some tf → aligned eq X (tf st X)) ∧
  (∀ ft st X, fit_transform model = Some ft → aligned eq X (ft st X).2) ∧
  ∃ X latent labels K,
    EvaluateSpace X latent labels K ∈ trace run ∧ ¬ aligned eq X latent.
Proof.
  intros model run. split_and!.
  - by intros tf st X [=].
  - intros ft st X [= <-]. simpl. split; [done|]. intros i x Hx. by exists x.
  - exists (NDArray [2; 2] [14; 16; 18; 20]%Z),
      (NDArray [2; 2] [7; 8; 9; 10]%Z), [1; 0], 15%Z.
    split; [vm_compute; repeat first [ by left | right ]|].
    intros [_ Hrows]. destruct (Hrows 0 [14; 16]%Z eq_refl) as (y & Hy & Hxy).
    vm_compute in Hy. congruence.
Qed.

(** C1: the run where the prefix does not name what was evaluated. The
    model has no [transform] and the configuration asks for the validation
    partition. The run says it runs on the test dataset, then that it
    evaluates on the validation dataset; [evaluate_space] gets the arrays of
    the test dataset, which are not those of the validation split; the keys
    returned say [validation_]; and no partition is both named by the
    prefix and the one whose arrays went to [evaluate_space]. With
    [transform] (the sibling branch, lines 79-83) the same configuration
    evaluates the validation split. *)
Lemma train_prefix_not_evaluated_partition :
  let C := demo_world demo_tsne in
  let evaluation := demo_evaluation true "validation" in
  let run := train C 1 evaluation demo_untracked 0 0 in
  let X := NDArray [2; 2] [7; 8; 9; 10]%Z in
  active evaluation = true ∧
  trace run
  = [ LogWarn "Model does not support separate training and prediction.";
      LogWarn "Directly running on test dataset!";
      LogInfo "Fitting model...";
      FitTransform X;
      LogInfo "Running evaluation on validation dataset";
      EvaluateSpace X X [1; 0] 15 ] ∧
  to_arrays (test_dataset C) = inr (X, [1; 0]) ∧
  to_arrays (validation_dataset C 1 0) = inr (NDArray [1; 2] [5; 6]%Z, [0]) ∧
  outcome run = inr {[ "validation_mrre" := 0%Z ]} ∧
  (¬ ∃ p : Partition,
      (∀ key v, ({[ "validation_mrre" := 0%Z ]} : gmap string Z) !! key = Some v →
                ∃ metric, key = (partition_name p +:+ "_") +:+ metric) ∧
      (∀ X latent labels K,
         EvaluateSpace X latent labels K ∈ trace run →
         to_arrays (partition_dataset C 1 0 p) = inr (X, labels))) ∧
  EvaluateSpace (NDArray [1; 2] [5; 6]%Z) (NDArray [1; 2] [5; 6]%Z) [0] 15
  ∈ trace (train (demo_world demo_pca) 1 evaluation demo_untracked 0 0).
Proof.
  intros C evaluation run X.
  split_and!; [ done | by vm_compute | by vm_compute | by vm_compute
              | by vm_compute | | vm_compute; repeat first [ by left | right ] ].
  intros (p & Hkeys & Hdata).
  destruct (Hkeys "validation_mrre" 0%Z eq_refl) as [metric Hmetric].
  specialize (Hdata X X [1; 0] 15%Z).
  destruct p; [ discriminate Hmetric | | discriminate Hmetric ].
  assert (to_arrays (partition_dataset C 1 0 ValidationPart)
          = inr (X, [1; 0])) as Hval
    by (apply Hdata; vm_compute; repeat first [ by left | right ]).
  vm_compute in Hval. discriminate Hval.
Qed.

(** C3 as stated fails. Evaluation is active and the embedding handed to
    [evaluate_space] has second extent 2, but the experiment has no
    observers: no visualization is requested. *)
Lemma train_no_visualization_untracked :
  let evaluation := demo_evaluation true "test" in
  let run := train (demo_world demo_pca) 1 evaluation demo_untracked 0 0 in
  let latent := NDArray [2; 2] [7; 8; 9; 10]%Z in
  active evaluation = true ∧
  EvaluateSpace latent latent [1; 0] 15 ∈ trace run ∧
  shape latent !! 1 = Some 2 ∧
  ∀ l labels save_file, VisualizeLatents l labels save_file ∉ trace run.
Proof.
  intros evaluation run latent.
  split_and!; [ done | vm_compute; repeat first [ by left | right ] | done | ].
  intros l labels save_file Hin. vm_compute in Hin.
  repeat (apply elem_of_cons in Hin as [Hin|Hin]; [discriminate Hin|]).
  by apply elem_of_nil in Hin.
Qed.
Lemma to_arrays_rows_witness :
  np_row (NDArray [2; 2] [7; 8; 9; 10]%Z) 1 = Some [9; 10]%Z ∧
  ([1; 0] : list nat) !! 1 = Some 0.
Proof.
  apply (to_arrays_rows (H := demo_domains) (demo_dataset false) (NDArray [2; 2] [7; 8; 9; 10]%Z)
           [1; 0] 1 (NDArray [2] [9; 10]%Z) 0);
    [ reflexivity | repeat constructor | reflexivity ].
Defined.

Lemma train_empty_dataset_witness :
  outcome (train (demo_world demo_pca) 3 (demo_evaluation true "test")
             demo_tracked 0 0)
  = inl (ValueError "not enough values to unpack (expected 2, got 0)").
Proof.
  exact (proj1 (train_empty_dataset (demo_world demo_pca) 3
                  (demo_evaluation true "test") demo_tracked 0 0 eq_refl)).
Defined.

Lemma train_observer_without_dir_witness :
  let run := train (demo_world demo_pca) 1 (demo_evaluation true "test")
               {| observers := [ {| dir := None |} ] |} 0 0 in
  outcome run = inl (AttributeError "dir") ∧
  FitTransform (NDArray [2; 2] [1; 2; 3; 4]%Z) ∈ trace run.
Proof.
  intros run.
  destruct (train_observer_without_dir (demo_world demo_pca) 1
              (demo_evaluation true "test")
              {| observers := [ {| dir := None |} ] |} 0 0
              {| dir := None |} (NDArray [2; 2] [1; 2; 3; 4]%Z) [0; 1]
              (λ st X, (S st, X)) eq_refl eq_refl eq_refl eq_refl)
    as (Hout & Hfit & _).
  exact (conj Hout Hfit).
Defined.

Lemma train_evaluates_two_axes_witness :
  is_Some (shape (NDArray [2; 2] [7; 8; 9; 10]%Z) !! 1).
Proof.
  apply (train_evaluates_two_axes (demo_world demo_pca) 1
           (demo_evaluation true "test") demo_tracked 0 0
           (NDArray [2; 2] [7; 8; 9; 10]%Z) (NDArray [2; 2] [7; 8; 9; 10]%Z)
           [1; 0] 15%Z).
  vm_compute. repeat first [ by left | right ].
Defined.

Lemma train_flat_embedding_witness :
  let run := train (demo_world demo_flat) 1 (demo_evaluation true "test")
               demo_tracked 0 0 in
  outcome run = inl (IndexError "tuple index out of range") ∧
  Savez "runs/1/latents.npz" (NDArray [4] [7; 8; 9; 10]%Z) [1; 0] ∈ trace run.
Proof.
  intros run.
  destruct (train_flat_embedding (demo_world demo_flat) 1
              (demo_evaluation true "test") demo_tracked 0 0
              (NDArray [2; 2] [7; 8; 9; 10]%Z) [1; 0]
              (λ st X, (S st, NDArray [np_size X] (buffer X))) (Some "runs/1")
              eq_refl eq_refl eq_refl eq_refl eq_refl eq_refl)
    as (Hout & _ & Hfiles).
  split; [exact Hout|].
  exact (proj2 (Hfiles "runs/1" eq_refl ltac:(discriminate))).
Defined.

Lemma train_transform_model_witness :
  Transform (NDArray [1; 2] [5; 6]%Z)
  ∈ trace (train (demo_world demo_pca) 1 (demo_evaluation true "validation")
             demo_tracked 0 0).
Proof.
  destruct (train_transform_model (demo_world demo_pca) 1
              (demo_evaluation true "validation") demo_tracked 0 0 (λ st X, X)
              eq_refl)
    as (_ & _ & Heval).
  destruct (Heval (NDArray [1; 2] [5; 6]%Z) (NDArray [1; 2] [5; 6]%Z) [0] 15%Z)
    as (X & ft & data & labels' & Hin & Harr & _);
    [vm_compute; repeat first [ by left | right ]|].
  injection Harr as <-. exact Hin.
Defined.

Lemma train_outcome_of_evaluation_witness :
  outcome (train (demo_world demo_pca) 1 (demo_evaluation true "test")
             demo_tracked 0 0)
  = inr (kmap (String.app ("test" +:+ "_")) ({[ "mrre" := 0%Z ]} : gmap string Z)).
Proof.
  apply (train_outcome_of_evaluation (demo_world demo_pca) 1
           (demo_evaluation true "test") demo_tracked 0 0
           (NDArray [2; 2] [7; 8; 9; 10]%Z) (NDArray [2; 2] [7; 8; 9; 10]%Z)
           [1; 0] 15%Z).
  vm_compute. repeat first [ by left | right ].
Defined.

Lemma train_falsy_rundir_witness :
  train (demo_world demo_pca) 1 (demo_evaluation true "test")
    {| observers := [ {| dir := Some (Some "") |} ] |} 0 0
  = train (demo_world demo_pca) 1 (demo_evaluation true "test")
      demo_untracked 0 0.
Proof.
  exact (train_falsy_rundir (demo_world demo_pca) 1
           (demo_evaluation true "test")
           {| observers := [ {| dir := Some (Some "") |} ] |} 0 0
           {| dir := Some (Some "") |} eq_refl (or_intror eq_refl)).
Defined.
End TrainExamples.

(** ** src/models/submodules.py: the flattening view *)
Section FlattenFacts.
Import Py Submodules.
Context `{TorchDomains}.
Implicit Types (x : ndarray Scalar).

(** [view(-1, n)]: the rows of width [n] the entries fill, when they fill
    rows of that width. *)
Lemma view_size_flatten (n numel : nat) :
  view_size [-1; Z.of_nat n]%Z numel =
  if (n =? 0) || negb (numel mod n =? 0)
  then inl (RuntimeError
              (if numel =? 0
               then "cannot reshape tensor of 0 elements: the unspecified dimension is ambiguous"
               else "shape is invalid for input size"))
  else inr [numel / n; n].
Proof.
  unfold view_size, infer_size. cbn [scan_shape].
  change (-1 =? -1)%Z with true. cbv iota.
  rewrite (proj2 (Z.eqb_neq (Z.of_nat n) (-1))) by lia.
  rewrite (proj2 (Z.leb_le 0 (Z.of_nat n))) by lia.
  cbn [mbind result_bind]. rewrite Nat.mul_1_l, Nat2Z.id.
  rewrite bool_decide_eq_true_2 by eauto. cbn [andb].
  destruct (n =? 0) eqn:Hzero; cbn [orb negb].
  - apply Nat.eqb_eq in Hzero as ->. cbn [Nat.ltb Nat.leb andb].
    rewrite orb_false_r. by destruct (numel =? 0).
  - apply Nat.eqb_neq in Hzero.
    rewrite (proj2 (Nat.ltb_lt 0 n)) by lia. cbn [andb].
    destruct (numel mod n =? 0) eqn:Hmod; cbn [negb].
    + rewrite orb_true_r. cbn [fmap list_fmap insert list_insert].
      by rewrite Nat2Z.id.
    + apply Nat.eqb_neq in Hmod.
      rewrite (proj2 (Nat.eqb_neq numel n)), (proj2 (Nat.eqb_neq numel 0)).
      * done.
      * intros ->. by rewrite Nat.Div0.mod_0_l in Hmod.
      * intros ->. by rewrite Nat.Div0.mod_same in Hmod.
Qed.

Lemma view_flatten (n : nat) x :
  tensor_view [-1; Z.of_nat n]%Z x =
  if (n =? 0) || negb (np_size x mod n =? 0)
  then inl (RuntimeError
              (if np_size x =? 0
               then "cannot reshape tensor of 0 elements: the unspecified dimension is ambiguous"
               else "shape is invalid for input size"))
  else inr (NDArray [np_size x / n; n] (buffer x)).
Proof.
  unfold tensor_view. rewrite view_size_flatten. by destruct (_ || _).
Qed.
End FlattenFacts.

(** ** src/models/submodules.py: OrthoProjectionModel *)
Section OrthoProjectionFacts.
Import Py Submodules.
Context `{TorchDomains} (T : Torch).
Implicit Types (x : ndarray Scalar) (self : OrthoProjection).

Local Arguments String.append : simpl never.

Lemma fc_name_inj i j : fc_name i = fc_name j → i = j.
Proof. unfold fc_name. by intros ?%(inj (String.app "fc"))%(inj pretty). Qed.

Lemma fc_name_not_flatten i : "flatten" ≠ fc_name i.
Proof. unfold fc_name. cbn. by intros [=]. Qed.

(** After [__init__] the attribute ["fc%d" % i] holds the i-th linear layer,
    made orthogonal, for each [i] below [n_projections]; no later iteration
    of the loop rebinds it. *)
Lemma OrthoProjectionModel_attrs θ input_dims n out_dim i :
  attrs (OrthoProjectionModel T θ input_dims n out_dim) !! fc_name i =
  if decide (i < n)
  then Some (geotorch_orthogonal T (Linear (np_prod input_dims) out_dim (θ i)))
  else None.
Proof.
  unfold OrthoProjectionModel. cbn [attrs].
  rewrite lookup_insert_ne by apply fc_name_not_flatten.
  induction n as [|n IH].
  - simpl. by rewrite lookup_empty.
  - rewrite seq_S, foldl_snoc. cbn [Nat.add].
    destruct (decide (i = n)) as [->|Hne].
    + rewrite lookup_alter_eq, lookup_insert_eq. simpl.
      by rewrite decide_True by lia.
    + rewrite lookup_alter_ne, lookup_insert_ne, IH
        by (intros ?%fc_name_inj; done).
      repeat case_decide; done || lia.
Qed.

Lemma OrthoProjectionModel_flatten θ input_dims n out_dim :
  attrs (OrthoProjectionModel T θ input_dims n out_dim) !! "flatten" =
  Some (View [-1; Z.of_nat (np_prod input_dims)]%Z).
Proof. unfold OrthoProjectionModel. cbn [attrs]. apply lookup_insert_eq. Qed.

Lemma forward_step_raised self x e (indices : list nat) :
  foldl (forward_step T self x) (inl e) indices = inl e.
Proof. by induction indices. Qed.

Lemma forward_step_inr self x (acc : list (ndarray Scalar)) i :
  forward_step T self x (inr acc) i =
  match attrs self !! fc_name i with
  | None => inl (AttributeError (fc_name i))
  | Some fc =>
      match apply_layer T fc x with
      | inl e => inl e
      | inr y => inr (acc ++ [y])
      end
  end.
Proof. unfold forward_step. simpl. by destruct (attrs self !! fc_name i). Qed.

(** The loop of [forward] over any run of indices: it ends without raising
    exactly when each attribute exists and each sub-module accepts [x], and
    then it has appended their outputs in the order of the indices. *)
Lemma forward_loop self x (indices : list nat) (acc outputs : list (ndarray Scalar)) :
  foldl (forward_step T self x) (inr acc) indices = inr outputs ↔
  ∃ ys, outputs = acc ++ ys ∧
        Forall2 (λ i y, ∃ fc, attrs self !! fc_name i = Some fc ∧
                              apply_layer T fc x = inr y) indices ys.
Proof.
  revert acc. induction indices as [|i indices IH]; intros acc; cbn [foldl].
  - split.
    + intros [= <-]. exists []. by rewrite app_nil_r.
    + intros (ys & -> & ->%Forall2_nil_inv_l). by rewrite app_nil_r.
  - rewrite forward_step_inr.
    destruct (attrs self !! fc_name i) as [fc|] eqn:Hfc;
      [destruct (apply_layer T fc x) as [e|y] eqn:Hy|].
    2:{ rewrite IH. split.
        - intros (ys & -> & Hys). exists (y :: ys).
          rewrite <- app_assoc. split; [done|]. constructor; eauto.
        - intros (ys & -> & (y' & ys' & (fc' & ? & ?) & Hys & ->)%Forall2_cons_inv_l).
          exists ys'. rewrite <- app_assoc. split; [|done].
          simpl. congruence. }
    all: rewrite forward_step_raised; split; [done|].
    all: intros (ys & _ & (y' & ys' & (fc' & ? & ?) & _ & _)%Forall2_cons_inv_l).
    all: congruence.
Qed.

(** C7. In a model built with [n_projections] sub-modules, the attribute
    ['fc' + i] is the i-th linear layer for each [i] below [n_projections],
    and [forward(x)] returns a list exactly when the entries of the input
    fill rows of the flattened input width, the layout of the input admits
    that view, and every sub-module accepts the flattened input; the list
    then has [n_projections] elements, the one at index [i] being the output
    of ['fc' + i] on the flattened input: the entries of [x], in order, in
    rows of that width. *)
Theorem OrthoProjectionModel_forward_outputs θ input_dims n out_dim
    (x : Tensor) outputs :
  let self := OrthoProjectionModel T θ input_dims n out_dim in
  let width := np_prod input_dims in
  let fc i := geotorch_orthogonal T (Linear width out_dim (θ i)) in
  let flat := NDArray [np_size (value x) / width; width] (buffer (value x)) in
  (∀ i, i < n → attrs self !! fc_name i = Some (fc i)) ∧
  (OrthoProjectionModel_forward T self x = inr outputs ↔
   width ≠ 0 ∧ np_size (value x) mod width = 0 ∧
   is_Some (compute_stride T (shape (value x)) (stride x) (shape flat)) ∧
   length outputs = n ∧
   ∀ i, i < n → ∃ y, outputs !! i = Some y ∧
                     apply_layer T (fc i) flat = inr y).
Proof.
  intros self width fc flat.
  assert (∀ i, i < n → attrs self !! fc_name i = Some (fc i)) as Hattrs.
  { intros i Hi. subst self. rewrite OrthoProjectionModel_attrs.
    by rewrite decide_True. }
  split; [done|].
  unfold OrthoProjectionModel_forward.
  subst self. rewrite OrthoProjectionModel_flatten.
  change (n_projections (OrthoProjectionModel T θ input_dims n out_dim)) with n.
  cbn [getattr mbind result_bind apply_module]. unfold view.
  rewrite view_flatten. fold width.
  destruct (width =? 0) eqn:Hzero; cbn [orb].
  { apply Nat.eqb_eq in Hzero. split; [done|]. by intros [? _]. }
  apply Nat.eqb_neq in Hzero.
  destruct (np_size (value x) mod width =? 0) eqn:Hmod; cbn [negb].
  2:{ apply Nat.eqb_neq in Hmod. split; [done|]. by intros (_ & ? & _). }
  apply Nat.eqb_eq in Hmod. cbn [mbind result_bind]. fold flat.
  destruct (compute_stride T _ _ _) as [strides|] eqn:Hstride.
  2:{ split; [done|]. by intros (_ & _ & [? [=]] & _). }
  cbn [mbind result_bind mret result_ret value].
  rewrite forward_loop. cbn [app]. split.
  - intros (ys & -> & Hys).
    apply Forall2_same_length_lookup in Hys as [Hlen Hys].
    rewrite length_seq in Hlen.
    do 2 (split; [done|]). split; [by eexists|]. split; [done|].
    intros i Hi.
    destruct (lookup_lt_is_Some_2 ys i) as [y Hy]; [lia|].
    exists y. split; [done|].
    destruct (Hys i i y) as (fc' & Hfc' & Hy'); [by apply lookup_seq|done|].
    rewrite Hattrs in Hfc' by done. congruence.
  - intros (_ & _ & _ & Hlen & Hall). exists outputs. split; [done|].
    apply Forall2_same_length_lookup. rewrite length_seq. split; [done|].
    intros i j y [-> Hi]%lookup_seq Hy. simpl.
    destruct (Hall i Hi) as (y' & Hy' & Happ).
    exists (fc i). split; [by apply Hattrs|]. congruence.
Qed.
End OrthoProjectionFacts.

(** ** src/models/submodules.py: the autoencoders *)
Section AutoencoderFacts.
Import Py Submodules.
Context `{TorchDomains} (T : Torch).
Implicit Types (t x : TensorRef) (σ : list (list Scalar)) (self : AutoencoderModel).

(** What one module call does to the heap: a view shares the storage of its
    input, an in-place ReLU overwrites it, any other layer allocates. *)
Lemma call_cases module t σ t' σ' :
  call T module t σ = inr (t', σ') →
  ∃ b, σ !! storage t = Some b ∧
       match module with
       | View _ => σ' = σ ∧ storage t' = storage t
       | ReLU true => σ' = <[storage t := relu T <$> b]> σ ∧ t' = t
       | _ => ∃ out, σ' = σ ++ [out] ∧ storage t' = length σ
       end.
Proof.
  unfold call, deref. destruct (σ !! storage t) as [b|]; [|done].
  intros Hcall. exists b. split; [done|].
  destruct module as [ | | | [] | | | | ];
    unfold alloc, tensor_view, mbind, mret, result_bind, result_ret in Hcall;
    cbn in Hcall;
    repeat match type of Hcall with
           | context [match ?r with _ => _ end] =>
               destruct r; cbn in Hcall; [done|]
           end;
    injection Hcall as <- <-; eauto.
Qed.

Lemma sequential_app modules1 modules2 t σ :
  sequential T (modules1 ++ modules2) t σ =
  ('(t1, σ1) ← sequential T modules1 t σ; sequential T modules2 t1 σ1).
Proof.
  revert t σ. induction modules1 as [|module modules1 IH]; intros t σ; [done|].
  simpl. destruct (call T module t σ) as [e|[t1 σ1]]; [done|]. apply IH.
Qed.

(** Frame: a pipeline touches the storage it is given and the ones it
    allocates, nothing else. *)
Lemma sequential_frame modules t σ t' σ' l :
  sequential T modules t σ = inr (t', σ') →
  l ≠ storage t → l < length σ → σ' !! l = σ !! l.
Proof.
  revert t σ. induction modules as [|module modules IH]; intros t σ; simpl.
  { by intros [= _ <-]. }
  destruct (call T module t σ) as [e|[t1 σ1]] eqn:Hcall; [done|]. simpl.
  intros Hrest Hl Hlen. apply call_cases in Hcall as (b & Hb & Hcase).
  destruct module as [ | | | [] | | | | ].
  all: try (destruct Hcase as (out & -> & Ht1);
            rewrite (IH _ _ Hrest) by (rewrite ?length_app; simpl; lia);
            by apply lookup_app_l).
  - destruct Hcase as [-> ->].
    rewrite (IH _ _ Hrest) by (by rewrite ?length_insert).
    by apply list_lookup_insert_ne.
  - destruct Hcase as [-> Ht1]. apply (IH _ _ Hrest); [congruence|done].
Qed.

(** With no in-place layer ahead of the first allocating one, the storage of
    the input itself is left as it was. *)
Lemma sequential_keeps_input modules t σ t' σ' :
  keeps_input modules = true →
  sequential T modules t σ = inr (t', σ') →
  σ' !! storage t = σ !! storage t.
Proof.
  revert t σ. induction modules as [|module modules IH]; intros t σ; simpl.
  { by intros _ [= _ <-]. }
  destruct (call T module t σ) as [e|[t1 σ1]] eqn:Hcall; [by intros _ ?|]. simpl.
  intros Hkeeps Hrest. apply call_cases in Hcall as (b & Hb & Hcase).
  pose proof (lookup_lt_Some _ _ _ Hb) as Hlt.
  destruct module as [ | | | [] | | | | ]; try done.
  all: try (destruct Hcase as (out & -> & Ht1);
            rewrite (sequential_frame _ _ _ _ _ (storage t) Hrest)
              by (rewrite ?length_app; simpl; lia);
            by apply lookup_app_l).
  destruct Hcase as [-> Ht1]. rewrite <- Ht1. by apply IH.
Qed.

(** [forward] of any model whose encoder followed by its decoder keeps the
    input: the loss is taken against [x] as it was passed in. *)
Lemma forward_keeps_input self x σ res σ' :
  keeps_input (encoder self ++ decoder self) = true →
  forward T self x σ = inr (res, σ') ↔
  ∃ latent σ1 x_reconst vx vr e,
    deref σ x = inr vx ∧
    encode T self x σ = inr (latent, σ1) ∧
    decode T self latent σ1 = inr (x_reconst, σ') ∧
    deref σ' x_reconst = inr vr ∧
    mse_loss T vx vr = inr e ∧
    res = (e, {[ "reconstruction_error" := e ]}).
Proof.
  intros Hkeeps. unfold forward.
  pose proof (sequential_app (encoder self) (decoder self) x σ) as Happ.
  fold (encode T self x σ) in Happ.
  destruct (encode T self x σ) as [e1|[latent σ1]] eqn:Hencode.
  { split; [done|]. intros (? & ? & ? & ? & ? & ? & ? & ? & ?). simplify_eq. }
  cbn [mbind result_bind] in Happ |- *. fold (decode T self latent σ1) in Happ.
  destruct (decode T self latent σ1) as [e2|[x_reconst σ2]] eqn:Hdecode.
  { split; [done|]. intros (? & ? & ? & ? & ? & ? & ? & ? & ? & ?).
    simplify_eq; congruence. }
  cbn [mbind result_bind].
  assert (deref σ2 x = deref σ x) as ->.
  { unfold deref. by rewrite (sequential_keeps_input _ _ _ _ _ Hkeeps Happ). }
  destruct (deref σ x) as [e3|vx]; cbn [mbind result_bind];
    [|destruct (deref σ2 x_reconst) as [e4|vr] eqn:Hvr; cbn [mbind result_bind];
      [|destruct (mse_loss T vx vr) as [e5|e] eqn:Hmse;
        cbn [mbind result_bind]; unfold mret, result_ret]].
  4:{ split.
      - intros ?; simplify_eq. by exists latent, σ1, x_reconst, vx, vr, e.
      - intros (? & ? & ? & ? & ? & ? & ? & ? & ? & ? & ? & ->).
        simplify_eq; congruence. }
  all: split; [done|].
  all: intros (? & ? & ? & ? & ? & ? & ? & ? & ? & ? & ? & ?).
  all: simplify_eq; congruence.
Qed.

(** One call computes the layer's function of the value it is given: it
    raises when the function does, and otherwise its result denotes the
    function's value. *)
Lemma call_value module t σ v :
  deref σ t = inr v →
  match apply_layer T module v with
  | inl e => call T module t σ = inl e
  | inr v' => ∃ t' σ', call T module t σ = inr (t', σ') ∧ deref σ' t' = inr v'
  end.
Proof.
  unfold call. intros Hv. rewrite Hv. cbn [mbind result_bind].
  unfold deref in Hv. destruct (σ !! storage t) as [b|] eqn:Hb; [|done].
  injection Hv as <-.
  assert (∀ out : ndarray Scalar,
            deref (alloc out σ).2 (alloc out σ).1 = inr out) as Halloc.
  { intros [sh buf]. unfold alloc, deref. cbn.
    by rewrite lookup_app_r, Nat.sub_diag by done. }
  destruct module as [ | | | [] | | | | ];
    try (destruct (apply_layer T _ _) as [e|out] eqn:Hout;
         cbn [mbind result_bind]; [done|];
         eexists _, _; split; [done|]; apply Halloc).
  - cbn. eexists _, _. split; [done|]. unfold deref. cbn.
    by rewrite list_lookup_insert_eq by by eapply lookup_lt_Some.
  - cbn [apply_layer]. unfold tensor_view. cbn [buffer].
    destruct (view_size _ _) as [e|sz]; cbn [mbind result_bind]; [done|].
    eexists _, _. split; [done|]. unfold deref. cbn. by rewrite Hb.
Qed.

(** A pipeline on the heap refines the pipeline on values. *)
Lemma sequential_refines modules t σ v :
  deref σ t = inr v →
  match sequential_value T modules v with
  | inl e => sequential T modules t σ = inl e
  | inr v' =>
      ∃ t' σ', sequential T modules t σ = inr (t', σ') ∧ deref σ' t' = inr v'
  end.
Proof.
  revert t σ v. induction modules as [|module modules IH]; intros t σ v Hv.
  { simpl. by exists t, σ. }
  cbn [sequential sequential_value].
  generalize (call_value module t σ v Hv).
  destruct (apply_layer T module v) as [e|v1]; cbn [mbind result_bind].
  { by intros ->. }
  intros (t1 & σ1 & -> & Hv1). cbn [mbind result_bind].
  by apply IH.
Qed.

(** C8. For each of the nine classes, whatever the constructor arguments
    and the initial parameters, and every input tensor [x]: [forward(x)]
    returns exactly when the encoder accepts [x], the decoder accepts the
    code and the loss accepts the pair, and what it returns is the
    mean-squared error [e] between [x] as it was passed in and
    [decode(encode(x))], paired with the mapping that has [e] under
    ['reconstruction_error'] and no other key. *)
Theorem forward_reconstruction_error θ (c : AEClass) x σ vx res :
  let self := init T θ c in
  deref σ x = inr vx →
  (∃ σ', forward T self x σ = inr (res, σ')) ↔
  ∃ z vr e,
    sequential_value T (encoder self) vx = inr z ∧
    sequential_value T (decoder self) z = inr vr ∧
    mse_loss T vx vr = inr e ∧
    res = (e, {[ "reconstruction_error" := e ]}).
Proof.
  intros self Hvx.
  assert (keeps_input (encoder self ++ decoder self) = true) as Hkeeps
    by (by destruct c).
  pose proof (sequential_refines (encoder self) x σ vx Hvx) as Henc.
  fold (encode T self x σ) in Henc.
  split.
  - intros (σ' & (latent & σ1 & x_reconst & vx' & vr & e & Hvx' & Hencode
                  & Hdecode & Hvr & Hmse & ->)%forward_keeps_input); [|done].
    rewrite Hvx in Hvx'. injection Hvx' as <-.
    destruct (sequential_value T (encoder self) vx) as [e1|z] eqn:Heq;
      rewrite ?Heq in Henc; [congruence|].
    destruct Henc as (latent' & σ1' & Hencode' & Hz).
    rewrite Hencode in Hencode'. injection Hencode' as <- <-.
    pose proof (sequential_refines (decoder self) latent σ1 z Hz) as Hdec.
    fold (decode T self latent σ1) in Hdec.
    destruct (sequential_value T (decoder self) z) as [e2|vr'] eqn:Heq';
      rewrite ?Heq' in Hdec; [congruence|].
    destruct Hdec as (x_reconst' & σ2 & Hdecode' & Hvr').
    rewrite Hdecode in Hdecode'. injection Hdecode' as <- <-.
    rewrite Hvr in Hvr'. injection Hvr' as <-.
    by exists z, vr, e.
  - intros (z & vr & e & Hz & Hvr & Hmse & ->).
    rewrite Hz in Henc. destruct Henc as (latent & σ1 & Hencode & Hlatent).
    pose proof (sequential_refines (decoder self) latent σ1 z Hlatent) as Hdec.
    fold (decode T self latent σ1) in Hdec.
    rewrite Hvr in Hdec. destruct Hdec as (x_reconst & σ2 & Hdecode & Hrec).
    exists σ2. apply forward_keeps_input; [done|].
    by exists latent, σ1, x_reconst, vx, vr, e.
Qed.
End AutoencoderFacts.

(** *** The concrete torch *)
Section SubmodulesExamples.
Import Py Submodules.
#[local] Existing Instance demo_torch_domains.

Lemma OrthoProjectionModel_forward_outputs_witness :
  let flat := NDArray [2; 2] [1; 2; 3; 4]%Z in
  2 ≠ 0 ∧ 4 mod 2 = 0 ∧
  is_Some (compute_stride demo_torch [2; 1; 2] [2; 2; 1] [2; 2]) ∧
  length [NDArray [2; 1] [10; 10]%Z; NDArray [2; 1] [11; 11]%Z;
          NDArray [2; 1] [12; 12]%Z] = 3 ∧
  ∀ i, i < 3 →
       ∃ y, [NDArray [2; 1] [10; 10]%Z; NDArray [2; 1] [11; 11]%Z;
             NDArray [2; 1] [12; 12]%Z] !! i = Some y ∧
            apply_layer demo_torch
              (geotorch_orthogonal demo_torch
                 (Linear 2 1 (10 + Z.of_nat i)%Z)) flat = inr y.
Proof.
  apply (proj1 (proj2 (OrthoProjectionModel_forward_outputs
                         (H := demo_torch_domains) demo_torch
                         (λ i, (10 + Z.of_nat i)%Z) [2] 3 1
                         (@Build_Tensor demo_torch_domains
                            (NDArray [2; 1; 2] [1; 2; 3; 4]%Z) [2; 2; 1])
                         _))).
  reflexivity.
Defined.

Lemma forward_reconstruction_error_witness :
  let self := init demo_torch (λ i, Z.of_nat i) (LinearAE_Spheres 2) in
  let x := {| storage := 0; size := [1; 2] |} in
  ∃ σ', forward demo_torch self x [[3; 4]%Z]
        = inr ((13%Z, {[ "reconstruction_error" := 13%Z ]}), σ').
Proof.
  intros self x.
  apply (proj2 (forward_reconstruction_error demo_torch (λ i, Z.of_nat i)
                  (LinearAE_Spheres 2) x [[3; 4]%Z] (NDArray [1; 2] [3; 4]%Z)
                  (13%Z, {[ "reconstruction_error" := 13%Z ]}) eq_refl)).
  exists (NDArray [1; 2] [0; 0]%Z), (NDArray [1; 2] [1; 1]%Z), 13%Z.
  by split_and!.
Defined.
End SubmodulesExamples.

(** ** src/models/submodules.py: View, the builders and the frame of forward *)
Section ViewFacts.
Import Py Submodules.
Context `{TorchDomains}.
Implicit Types (x y : ndarray Scalar) (s : list Z).

Lemma np_prod_inferred s (q : nat) :
  np_prod ((λ d, if decide (d = (-1)%Z) then q else Z.to_nat d) <$> s) =
  q ^ length (filter (λ d, d = (-1)%Z) s)
  * np_prod (Z.to_nat <$> filter (λ d, d ≠ (-1)%Z) s).
Proof.
  induction s as [|d s IH]; [done|].
  rewrite fmap_cons, !filter_cons. cbn [np_prod foldr].
  fold (np_prod ((λ d, if decide (d = (-1)%Z) then q else Z.to_nat d) <$> s)).
  rewrite IH. destruct (decide (d = (-1)%Z)) as [->|Hd].
  - rewrite decide_False by (by intros []). cbn [length Nat.pow]. lia.
  - rewrite decide_True by done. rewrite fmap_cons. cbn [np_prod foldr].
    fold (np_prod (Z.to_nat <$> filter (λ d, d ≠ (-1)%Z) s)). lia.
Qed.

Lemma to_nat_inferred s (q : nat) :
  filter (λ d, d = (-1)%Z) s = [] →
  (λ d, if decide (d = (-1)%Z) then q else Z.to_nat d) <$> s = Z.to_nat <$> s.
Proof.
  intros Hnone. apply list_fmap_ext. intros i d Hd.
  rewrite decide_False; [done|]. intros ->.
  apply list_elem_of_lookup_2 in Hd.
  assert ((-1)%Z ∈ filter (λ d, d = (-1)%Z) s) as Hin
    by (by apply list_elem_of_filter).
  rewrite Hnone in Hin. by apply elem_of_nil in Hin.
Qed.

(** What the pass over the shape has found when it ends without raising. *)
Lemma scan_shape_inr s (dim newsize : nat) (infer_dim : option nat) p o :
  scan_shape s dim newsize infer_dim = inr (p, o) →
  Forall (λ d, (-1 ≤ d)%Z) s ∧
  p = newsize * np_prod (Z.to_nat <$> filter (λ d, d ≠ (-1)%Z) s) ∧
  match infer_dim, o with
  | Some i, _ => o = Some i ∧ filter (λ d, d = (-1)%Z) s = []
  | None, None => filter (λ d, d = (-1)%Z) s = []
  | None, Some i =>
      length (filter (λ d, d = (-1)%Z) s) = 1 ∧ dim ≤ i ∧
      ∀ q : nat,
        <[i - dim := q]> (Z.to_nat <$> s)
        = (λ d, if decide (d = (-1)%Z) then q else Z.to_nat d) <$> s
  end.
Proof.
  revert dim newsize infer_dim.
  induction s as [|d s IH]; intros dim newsize infer_dim; cbn [scan_shape].
  { intros [= <- <-]. split_and!; [by constructor|cbn; lia|].
    by destruct infer_dim. }
  destruct (d =? -1)%Z eqn:Hd.
  - apply Z.eqb_eq in Hd as ->. destruct infer_dim as [i|]; [done|].
    intros (Hge & -> & -> & Hnone)%IH.
    rewrite !filter_cons, decide_False by (by intros []).
    rewrite decide_True by done. rewrite Hnone.
    split_and!; [by constructor|done|done|done|].
    intros q. rewrite Nat.sub_diag, !fmap_cons, decide_True by done.
    cbn [insert list_insert]. by rewrite to_nat_inferred.
  - apply Z.eqb_neq in Hd. destruct (0 <=? d)%Z eqn:Hpos; [|done].
    apply Z.leb_le in Hpos. intros (Hge & -> & Ho)%IH.
    rewrite !filter_cons, decide_True by done.
    rewrite decide_False by done. rewrite fmap_cons. cbn [np_prod foldr].
    fold (np_prod (Z.to_nat <$> filter (λ d, d ≠ (-1)%Z) s)).
    split_and!; [constructor; [lia|done]|lia|].
    destruct infer_dim as [i|]; [done|]. destruct o as [i|]; [|done].
    destruct Ho as (Hcount & Hi & Hins). split_and!; [done|lia|].
    intros q. replace (i - dim) with (S (i - S dim)) by lia.
    rewrite !fmap_cons, decide_False by done. cbn [insert list_insert].
    by rewrite Hins.
Qed.

Lemma infer_size_Some s numel size :
  infer_size s numel = inr size →
  Forall (λ d, (-1 ≤ d)%Z) s ∧
  length (filter (λ d, d = (-1)%Z) s) ≤ 1 ∧
  np_prod size = numel ∧ length size = length s.
Proof.
  unfold infer_size.
  destruct (scan_shape s 0 1 None) as [e|[p o]] eqn:Hscan; [done|].
  cbn [mbind result_bind].
  apply scan_shape_inr in Hscan as (Hge & Hp & Ho).
  rewrite Nat.mul_1_l in Hp.
  destruct o as [i|].
  - destruct Ho as (Hcount & _ & Hins).
    destruct (_ || _) eqn:Hfits; [|done].
    destruct (p =? 0) eqn:Hzero; [done|]. apply Nat.eqb_neq in Hzero.
    intros [= <-]. specialize (Hins (numel / p)).
    rewrite Nat.sub_0_r in Hins.
    split_and!; [done|lia| |by rewrite length_insert, length_fmap].
    rewrite Hins, np_prod_inferred, Hcount, <- Hp. cbn [Nat.pow].
    rewrite Nat.mul_1_r.
    assert (numel mod p = 0) as Hmod.
    { apply orb_true_iff in Hfits as [->%Nat.eqb_eq|Hfits].
      - by apply Nat.Div0.mod_same.
      - by apply andb_true_iff in Hfits as [_ ?%Nat.eqb_eq]. }
    apply Nat.Div0.div_exact in Hmod. lia.
  - rewrite bool_decide_eq_false_2 by (by inversion 1).
    cbn [andb]. rewrite orb_false_r.
    destruct (numel =? p) eqn:Hfits; [|done]. apply Nat.eqb_eq in Hfits.
    intros [= <-]. split_and!; [done|rewrite Ho; cbn; lia| |by rewrite length_fmap].
    rewrite <- (to_nat_inferred s 0 Ho), np_prod_inferred, Ho. cbn. lia.
Qed.

Lemma view_size_Some s numel size :
  view_size s numel = inr size → infer_size s numel = inr size.
Proof. by destruct s. Qed.

(** X14. [View]: a view is returned only for a shape with no extent below
    [-1] and at most one [-1]; it has the entries of its input in the same
    order, as many elements as its input, and as many axes as the shape
    asks for. *)
Theorem tensor_view_preserves s x y :
  tensor_view s x = inr y →
  Forall (λ d, (-1 ≤ d)%Z) s ∧
  length (filter (λ d, d = (-1)%Z) s) ≤ 1 ∧
  buffer y = buffer x ∧ np_size y = np_size x ∧
  length (shape y) = length s.
Proof.
  unfold tensor_view.
  destruct (view_size s (np_size x)) as [e|size] eqn:Hsize; [done|].
  intros [= <-].
  apply view_size_Some, infer_size_Some in Hsize as (? & ? & ? & ?).
  by split_and!.
Qed.

(** The pass over a shape that is a size: nothing to infer. *)
Lemma scan_shape_of_nat (dims : list nat) (dim newsize : nat)
    (infer_dim : option nat) :
  scan_shape (Z.of_nat <$> dims) dim newsize infer_dim
  = inr (newsize * np_prod dims, infer_dim).
Proof.
  revert dim newsize. induction dims as [|n dims IH]; intros dim newsize.
  { cbn. by rewrite Nat.mul_1_r. }
  rewrite fmap_cons. cbn [scan_shape].
  rewrite (proj2 (Z.eqb_neq (Z.of_nat n) (-1))) by lia.
  rewrite (proj2 (Z.leb_le 0 (Z.of_nat n))) by lia.
  rewrite IH, Nat2Z.id. cbn [np_prod foldr].
  fold (np_prod dims). do 2 f_equal. lia.
Qed.

Lemma to_of_nat (dims : list nat) : Z.to_nat <$> (Z.of_nat <$> dims) = dims.
Proof.
  rewrite <- list_fmap_compose. rewrite <- (list_fmap_id dims) at 2.
  apply list_fmap_ext. intros i n _. simpl. lia.
Qed.

Lemma infer_size_of_nat (dims : list nat) numel size :
  infer_size (Z.of_nat <$> dims) numel = inr size → size = dims.
Proof.
  unfold infer_size. rewrite scan_shape_of_nat. cbn [mbind result_bind].
  destruct (_ || _); [|done]. intros [= <-]. apply to_of_nat.
Qed.

(** X15. Round trip of [View]: a view of the result of a view under the
    shape of the original tensor, when it returns, is the original tensor;
    it does not return for a tensor without axes, whose shape leaves [view]
    without arguments. *)
Theorem tensor_view_back s x y x' :
  tensor_view s x = inr y →
  tensor_view (Z.of_nat <$> shape x) y = inr x' →
  x' = x ∧ shape x ≠ [].
Proof.
  unfold tensor_view.
  destruct (view_size s (np_size x)) as [e|size] eqn:Hsize; [done|].
  intros [= <-]. cbn [buffer].
  destruct (view_size (Z.of_nat <$> shape x) _) as [e|size'] eqn:Hsize';
    [done|].
  cbn [mbind result_bind mret result_ret]. intros Hx'. simplify_eq. split.
  - apply view_size_Some, infer_size_of_nat in Hsize' as ->.
    injection Hx' as <-. by destruct x.
  - intros Hnil. by rewrite Hnil in Hsize'.
Qed.
End ViewFacts.

Section BuilderFacts.
Import Py Submodules.
Context `{TorchDomains} (T : Torch).
Implicit Types (x y : ndarray Scalar) (σ : list (list Scalar)).

Lemma view_rows (batch : nat) y :
  tensor_view [Z.of_nat batch; -1]%Z y =
  if (batch =? 0) || negb (np_size y mod batch =? 0)
  then inl (RuntimeError
              (if np_size y =? 0
               then "cannot reshape tensor of 0 elements: the unspecified dimension is ambiguous"
               else "shape is invalid for input size"))
  else inr (NDArray [batch; np_size y / batch] (buffer y)).
Proof.
  unfold tensor_view, view_size, infer_size. cbn [scan_shape].
  rewrite (proj2 (Z.eqb_neq (Z.of_nat batch) (-1))) by lia.
  rewrite (proj2 (Z.leb_le 0 (Z.of_nat batch))) by lia.
  change (-1 =? -1)%Z with true. cbv iota.
  cbn [mbind result_bind]. rewrite Nat.mul_1_l, Nat2Z.id.
  rewrite bool_decide_eq_true_2 by eauto. cbn [andb].
  generalize (np_size y). intros numel.
  destruct (batch =? 0) eqn:Hzero; cbn [orb negb].
  - apply Nat.eqb_eq in Hzero as ->. cbn [Nat.ltb Nat.leb andb].
    rewrite orb_false_r. by destruct (numel =? 0).
  - apply Nat.eqb_neq in Hzero.
    rewrite (proj2 (Nat.ltb_lt 0 batch)) by lia. cbn [andb].
    destruct (numel mod batch =? 0) eqn:Hmod; cbn [negb].
    + rewrite orb_true_r. cbn [fmap list_fmap insert list_insert].
      by rewrite Nat2Z.id.
    + apply Nat.eqb_neq in Hmod.
      rewrite (proj2 (Nat.eqb_neq numel batch)), (proj2 (Nat.eqb_neq numel 0)).
      * done.
      * intros ->. by rewrite Nat.Div0.mod_0_l in Hmod.
      * intros ->. by rewrite Nat.Div0.mod_same in Hmod.
Qed.

(** X16. [RandomProjectionModel.forward]: when it returns, the input has a
    first axis of non-zero extent, the projection has accepted the input,
    the batch size divides the number of projected entries, and the result
    is two-dimensional, one row per input sample, holding the projected
    entries in order. It raises [IndexError] on a tensor without axes,
    whatever the projection raises, and [RuntimeError] when the batch is
    empty or its size does not divide the number of projected entries. *)
Theorem RandomProjectionModel_forward_spec (projection : list Layer) x :
  (∀ out,
     RandomProjectionModel_forward T projection x = inr out →
     ∃ batch y,
       shape x !! 0 = Some batch ∧ batch ≠ 0 ∧
       sequential_value T projection x = inr y ∧
       np_size y mod batch = 0 ∧
       out = NDArray [batch; np_size y / batch] (buffer y)) ∧
  (shape x = [] →
   RandomProjectionModel_forward T projection x
   = inl (IndexError "tuple index out of range")) ∧
  (∀ e, shape x ≠ [] →
        sequential_value T projection x = inl e →
        RandomProjectionModel_forward T projection x = inl e) ∧
  (∀ batch y,
     shape x !! 0 = Some batch →
     sequential_value T projection x = inr y →
     batch = 0 ∨ np_size y mod batch ≠ 0 →
     ∃ msg, RandomProjectionModel_forward T projection x
            = inl (RuntimeError msg)).
Proof.
  unfold RandomProjectionModel_forward, shape_getitem.
  destruct (shape x) as [|batch inner] eqn:Hshape; cbn [lookup list_lookup].
  { cbn [mbind result_bind]. by split_and!. }
  cbn [mbind result_bind].
  destruct (sequential_value T projection x) as [e|y]; cbn [mbind result_bind].
  { split_and!; try done; try (by intros e' _ [= ->]); by intros ? ? _ [=]. }
  rewrite view_rows. split_and!; [|done|by intros e _ [=]|].
  - intros out.
    destruct (batch =? 0) eqn:Hzero; cbn [orb]; [done|].
    apply Nat.eqb_neq in Hzero.
    destruct (np_size y mod batch =? 0) eqn:Hmod; cbn [negb]; [|done].
    apply Nat.eqb_eq in Hmod. intros [= <-]. by exists batch, y.
  - intros batch' y' [= <-] [= <-] Hbad.
    destruct Hbad as [->|Hmod]; [by eexists|].
    apply Nat.eqb_neq in Hmod. rewrite Hmod. cbn [negb].
    rewrite orb_true_r. by eexists.
Qed.

Lemma build_layers_loop (θ : nat → Params) (final_relu : bool) (m : Z)
    (pairs : list (nat * nat)) (j : nat) (acc : list Layer) :
  (Z.of_nat j + Z.of_nat (length pairs) = m + 1)%Z →
  foldl (λ layers '(i, (d_in, d_out)),
           let layers := layers ++ [Linear d_in d_out (θ i)] in
           if (Z.of_nat i =? m)%Z && negb final_relu
           then layers ++ [ReLU true]
           else layers)
        acc (imap (λ i pair, (j + i, pair)) pairs)
  = acc ++ imap (λ i pair, Linear pair.1 pair.2 (θ (j + i))) pairs
        ++ (if pairs is [] then [] else if final_relu then [] else [ReLU true]).
Proof.
  revert j acc. induction pairs as [|[d_in d_out] pairs IH]; intros j acc Hlen.
  { simpl. by rewrite app_nil_r. }
  cbn [imap foldl]. rewrite Nat.add_0_r.
  rewrite (imap_ext (_ ∘ S) (λ i pair, (S j + i, pair)) pairs)
    by (intros; simpl; f_equal; lia).
  rewrite (imap_ext (_ ∘ S) (λ i pair, Linear pair.1 pair.2 (θ (S j + i))) pairs)
    by (intros; simpl; do 2 f_equal; lia).
  cbn [length] in Hlen. destruct pairs as [|pair pairs].
  - cbn [length] in Hlen. rewrite (proj2 (Z.eqb_eq _ _)) by lia.
    cbn [andb imap foldl app fst snd]. destruct final_relu; cbn [negb].
    + done.
    + by rewrite <- app_assoc.
  - rewrite (proj2 (Z.eqb_neq _ _)) by (cbn [length] in Hlen; lia).
    cbn [andb]. rewrite IH by (cbn [length] in *; lia).
    by rewrite <- app_assoc.
Qed.

(** X17. [_build_layers] in closed form: one linear layer per pair of
    consecutive widths, in order, each feeding the next with no activation
    in between; a single in-place ReLU comes after the last one, and it
    comes exactly when [final_relu] is false; [final_bias] changes
    nothing. Fewer than two widths give no layer at all. *)
Theorem build_layers_spec (θ : nat → Params) (arch : list nat)
    (final_bias final_relu : bool) :
  _build_layers θ arch final_bias final_relu =
  imap (λ i pair, Linear pair.1 pair.2 (θ i)) (zip arch (drop 1 arch))
  ++ (if decide (2 ≤ length arch)
      then if final_relu then [] else [ReLU true]
      else []).
Proof.
  unfold _build_layers.
  assert (length (zip arch (drop 1 arch)) = length arch - 1) as Hlen.
  { rewrite length_zip_with, length_drop. lia. }
  set (pairs := zip arch (drop 1 arch)) in *.
  destruct (decide (2 ≤ length arch)) as [Harch|Harch].
  - etransitivity;
      [exact (build_layers_loop θ final_relu (Z.of_nat (length arch) - 2)
                pairs 0 [] ltac:(lia))|].
    cbn [app]. destruct pairs; [cbn [length] in Hlen; lia|done].
  - assert (pairs = []) as -> by (apply nil_length_inv; lia). done.
Qed.

(** X18. The autoencoders without [BatchNorm1d] do not touch what the
    caller holds: when [forward] of one of them returns, every storage that
    existed before the call, the one of the input included, has the content
    it had; the call has only allocated. Their in-place ReLUs work on
    tensors the call itself made. *)
Theorem forward_frame θ (c : AEClass) (x : TensorRef) σ res σ' :
  let self := init T θ c in
  existsb updates_buffers (encoder self ++ decoder self) = false →
  forward T self x σ = inr (res, σ') →
  take (length σ) σ' = σ.
Proof.
  intros self _.
  assert (keeps_input (encoder self ++ decoder self) = true) as Hkeeps
    by (by destruct c).
  intros (latent & σ1 & x_reconst & vx & vr & e & Hvx & Hencode & Hdecode & _)
    %forward_keeps_input; [|done].
  pose proof (sequential_app T (encoder self) (decoder self) x σ) as Happ.
  fold (encode T self x σ) in Happ. rewrite Hencode in Happ.
  cbn [mbind result_bind] in Happ.
  fold (decode T self latent σ1) in Happ. rewrite Hdecode in Happ.
  assert (∀ l, l < length σ → σ' !! l = σ !! l) as Hsame.
  { intros l Hl. destruct (decide (l = storage x)) as [->|Hne].
    - by apply (sequential_keeps_input T _ _ _ _ _ Hkeeps Happ).
    - by apply (sequential_frame T _ _ _ _ _ l Happ). }
  apply list_eq. intros l. destruct (decide (l < length σ)) as [Hl|Hl].
  - rewrite lookup_take_lt by done. by apply Hsame.
  - rewrite lookup_take_ge, lookup_ge_None_2 by lia. done.
Qed.

(** X19. [OrthoProjectionModel.forward] rejects an input whose number of
    elements is not a multiple of the flattened input width (or any input
    when that width is zero): the view raises a [RuntimeError] before any
    sub-module is called, whatever the number of projections and the layout
    of the input. *)
Theorem OrthoProjectionModel_forward_rejects θ input_dims n out_dim
    (x : Tensor) :
  np_prod input_dims = 0 ∨ np_size (value x) mod np_prod input_dims ≠ 0 →
  ∃ msg,
    OrthoProjectionModel_forward T
      (OrthoProjectionModel T θ input_dims n out_dim) x
    = inl (RuntimeError msg).
Proof.
  intros Hbad. unfold OrthoProjectionModel_forward.
  rewrite OrthoProjectionModel_flatten.
  cbn [getattr mbind result_bind apply_module]. unfold view.
  rewrite view_flatten.
  destruct Hbad as [->|Hmod]; [by eexists|].
  apply Nat.eqb_neq in Hmod. rewrite Hmod. cbn [negb].
  rewrite orb_true_r. by eexists.
Qed.

(** X20. The autoencoders that flatten their input ([DeepAE], [LinearAE],
    [LinearAEOrtho]) reject a batch whose number of elements is not a
    multiple of the flattened input width (any batch when that width is
    zero): [forward] raises a [RuntimeError], from the first view. *)
Theorem forward_rejects_ragged θ (c : AEClass) input_dims (x : TensorRef) σ vx :
  c = DeepAE input_dims ∨ c = LinearAE input_dims ∨ c = LinearAEOrtho input_dims →
  deref σ x = inr vx →
  np_prod input_dims = 0 ∨ np_size vx mod np_prod input_dims ≠ 0 →
  ∃ msg, forward T (init T θ c) x σ = inl (RuntimeError msg).
Proof.
  intros Hc Hx Hbad.
  assert (∃ rest, encoder (init T θ c)
                  = View [-1; Z.of_nat (np_prod input_dims)]%Z :: rest)
    as [rest Henc] by (destruct Hc as [->|[->| ->]]; by eexists).
  assert (∃ msg, view_size [-1; Z.of_nat (np_prod input_dims)]%Z (np_size vx)
                 = inl (RuntimeError msg)) as [msg Hsize].
  { rewrite view_size_flatten. destruct Hbad as [->|Hmod]; [by eexists|].
    apply Nat.eqb_neq in Hmod. rewrite Hmod. cbn [negb].
    rewrite orb_true_r. by eexists. }
  unfold forward, encode. rewrite Henc. cbn [sequential]. unfold call.
  rewrite Hx. cbn [mbind result_bind]. rewrite Hsize. by eexists.
Qed.

Lemma view_size_batch (dims : list nat) (numel : nat) (size : list nat) :
  view_size ((-1)%Z :: (Z.of_nat <$> dims)) numel = inr size →
  size = numel / np_prod dims :: dims.
Proof.
  unfold view_size, infer_size. cbn [scan_shape].
  change (-1 =? -1)%Z with true. cbv iota.
  rewrite scan_shape_of_nat. cbn [mbind result_bind].
  rewrite Nat.mul_1_l.
  destruct (_ || _); [|done]. destruct (_ =? 0); [done|].
  intros [= <-]. cbn [fmap list_fmap insert list_insert]. f_equal.
  apply to_of_nat.
Qed.

(** X21. What [LinearAE] and [LinearAEOrtho] decode has the declared input
    shape behind the batch axis: the reconstruction handed to the loss is
    shaped like a batch of inputs. *)
Theorem decode_shape θ (c : AEClass) input_dims (z : TensorRef) σ r σ' :
  c = LinearAE input_dims ∨ c = LinearAEOrtho input_dims →
  decode T (init T θ c) z σ = inr (r, σ') →
  ∃ batch, size r = batch :: input_dims.
Proof.
  intros Hc. unfold decode.
  assert (∃ w, decoder (init T θ c)
               = [ Linear 2 (np_prod input_dims) w;
                   View ((-1)%Z :: (Z.of_nat <$> input_dims)) ])
    as [w ->] by (destruct Hc as [->| ->]; by eexists).
  cbn [sequential].
  destruct (call T (Linear _ _ _) z σ) as [e|[t1 σ1]]; [done|].
  cbn [mbind result_bind]. unfold call.
  destruct (deref σ1 t1) as [e|v]; [done|]. cbn [mbind result_bind].
  destruct (view_size _ _) as [e|sz] eqn:Hsz; [done|].
  cbn [mbind result_bind mret result_ret]. intros [= <- _]. cbn [size].
  apply view_size_batch in Hsz as ->. by eexists.
Qed.
End BuilderFacts.

(** *** The concrete torch, again *)
Section BuilderExamples.
Import Py Submodules.
#[local] Existing Instance demo_torch_domains.

Lemma tensor_view_preserves_witness :
  let x := NDArray [2; 1; 2] [1; 2; 3; 4]%Z in
  let y := NDArray [2; 2] [1; 2; 3; 4]%Z in
  buffer y = buffer x ∧ np_size y = np_size x.
Proof.
  intros x y.
  destruct (tensor_view_preserves (H := demo_torch_domains) [-1; 2]%Z x y
              eq_refl)
    as (_ & _ & Hbuffer & Hsize & _).
  exact (conj Hbuffer Hsize).
Defined.

Lemma tensor_view_back_witness :
  let x := NDArray [2; 1; 2] [1; 2; 3; 4]%Z in
  x = x ∧ shape x ≠ [].
Proof.
  intros x.
  exact (tensor_view_back (H := demo_torch_domains) [-1; 2]%Z x
           (NDArray [2; 2] [1; 2; 3; 4]%Z) x eq_refl eq_refl).
Defined.

Lemma RandomProjectionModel_forward_spec_witness :
  let x := NDArray [2; 1; 1; 2] [1; -2; 3; 4]%Z in
  RandomProjectionModel (λ i, Z.of_nat i) [1; 1; 2] = inr demo_projection ∧
  ∃ batch y,
    shape x !! 0 = Some batch ∧ batch ≠ 0 ∧
    sequential_value demo_torch demo_projection x = inr y ∧
    np_size y mod batch = 0 ∧
    NDArray [2; 2] [1; 0; 3; 4]%Z = NDArray [batch; np_size y / batch] (buffer y).
Proof.
  intros x. split; [reflexivity|].
  apply (proj1 (RandomProjectionModel_forward_spec demo_torch
                  demo_projection x)).
  reflexivity.
Defined.

Lemma forward_frame_witness :
  take 1 [[-3; 4]; [0; 4]; [0; 4]; [0; 4]; [0; 4]; [0; 4]; [0; 4]; [0; 4];
          [0; 4]]%Z
  = [[-3; 4]%Z].
Proof.
  exact (forward_frame demo_torch (λ i, Z.of_nat i) ConvolutionalAutoencoder
           {| storage := 0; size := [1; 2] |} [[-3; 4]%Z]
           (9%Z, {[ "reconstruction_error" := 9%Z ]})
           [[-3; 4]; [0; 4]; [0; 4]; [0; 4]; [0; 4]; [0; 4]; [0; 4]; [0; 4];
            [0; 4]]%Z eq_refl eq_refl).
Defined.

Lemma OrthoProjectionModel_forward_rejects_witness :
  ∃ msg,
    OrthoProjectionModel_forward demo_torch
      (OrthoProjectionModel demo_torch (λ i, (10 + Z.of_nat i)%Z) [2] 3 1)
      (@Build_Tensor demo_torch_domains (NDArray [3] [1; 2; 3]%Z) [1])
    = inl (RuntimeError msg).
Proof.
  apply (OrthoProjectionModel_forward_rejects demo_torch
           (λ i, (10 + Z.of_nat i)%Z) [2] 3 1
           (@Build_Tensor demo_torch_domains (NDArray [3] [1; 2; 3]%Z) [1])).
  right. simpl. lia.
Defined.

Lemma forward_rejects_ragged_witness :
  ∃ msg,
    forward demo_torch (init demo_torch (λ i, Z.of_nat i) (LinearAE [2]))
      {| storage := 0; size := [3] |} [[1; 2; 3]%Z]
    = inl (RuntimeError msg).
Proof.
  apply (forward_rejects_ragged demo_torch (λ i, Z.of_nat i) (LinearAE [2]) [2]
           {| storage := 0; size := [3] |} [[1; 2; 3]%Z]
           (NDArray [3] [1; 2; 3]%Z));
    [ right; left; reflexivity | reflexivity | right; simpl; lia ].
Defined.

Lemma decode_shape_witness :
  ∃ batch, [1; 1; 2] = batch :: [1; 2].
Proof.
  apply (decode_shape demo_torch (λ i, Z.of_nat i) (LinearAE [1; 2]) [1; 2]
           {| storage := 0; size := [1; 2] |} [[5; 6]%Z]
           {| storage := 1; size := [1; 1; 2] |} [[5; 6]; [1; 1]]%Z);
    [ left; reflexivity | reflexivity ].
Defined.
End BuilderExamples.
